(** * boring_generic_file_filter: the specification engine of [main.py]

    A shallow embedding of [main.py]: the [Specification] classes and their
    [is_satisfied] methods, the generator [SubjectFilter.filter] and
    [RecursiveFileLister.extract_file_info], followed by the properties that
    the description of the program states about them.

    Conventions of the model.
    - A Python [str] is a [string] of 8-bit characters; [str.lower] acts on
      the letters [A]-[Z] only (the ASCII fragment of Python's [lower]).
    - What [is_satisfied] returns is a [PyVal]: the primitives fall off the
      end of their body when nothing matches, so [None] is a possible result
      next to [True] and [False].
    - [os.path] is the POSIX flavour ([os.path.sep] is ["/"]), following
      the definitions of [posixpath.basename] and [posixpath.dirname].
    - An item is the dictionary built by [extract_file_info]; its five keys
      are the fields of the record [Item]. *)

From Stdlib Require Import List Bool Arith Lia ZArith Permutation Sorted.
From Stdlib Require Import Strings.Ascii Strings.String.
From Stdlib Require Import Numbers.DecimalString Numbers.DecimalNat.
Import ListNotations.

Local Open Scope string_scope.
Local Open Scope list_scope.

(** ** Python values returned by [is_satisfied] *)

Inductive PyVal : Type :=
| VBool (b : bool)
| VNone.

(** Truth value testing, as done by [if], [not], [all] and [any]. *)
Definition truthy (v : PyVal) : bool :=
  match v with
  | VBool b => b
  | VNone => false
  end.

(** [not v] *)
Definition py_not (v : PyVal) : PyVal := VBool (negb (truthy v)).

(** [all(vs)]: stops at the first falsy element. *)
Fixpoint py_all (vs : list PyVal) : PyVal :=
  match vs with
  | [] => VBool true
  | v :: vs' => if truthy v then py_all vs' else VBool false
  end.

(** [any(vs)]: stops at the first truthy element. *)
Fixpoint py_any (vs : list PyVal) : PyVal :=
  match vs with
  | [] => VBool false
  | v :: vs' => if truthy v then VBool true else py_any vs'
  end.

(** ** Strings *)

(** One character of [str.lower()]. *)
Definition lower_char (c : ascii) : ascii :=
  let n := nat_of_ascii c in
  if ((65 <=? n)%nat && (n <=? 90)%nat)%bool then ascii_of_nat (n + 32) else c.

(** [s.lower()] *)
Fixpoint lower (s : string) : string :=
  match s with
  | EmptyString => EmptyString
  | String c s' => String (lower_char c) (lower s')
  end.

(** [y.startswith(x)] *)
Fixpoint startswith (y x : string) {struct x} : bool :=
  match x, y with
  | EmptyString, _ => true
  | String _ _, EmptyString => false
  | String a x', String b y' => Ascii.eqb a b && startswith y' x'
  end.

(** [x in y] for two strings: [x] occurs in [y] at some position. *)
Fixpoint str_in (x y : string) : bool :=
  startswith y x ||
  match y with
  | EmptyString => false
  | String _ y' => str_in x y'
  end.

(** ** Items *)

Record Item : Type := mkItem {
  file_path : string;
  file_name : string;
  extension : string;
  file_base_name : string;
  folder_names : list string
}.

(** ** Specifications *)

#[local] Set Warnings "-register-all".

Inductive Specification : Type :=
| AndSpecification (args : list Specification)
| OrSpecification (args : list Specification)
| NotSpecification (spec : Specification)
| FileName (file_names : list string)
| FolderNames (folder_name : list string)
| Extension (extensions : list string).

(** The loop shared by [FileName.is_satisfied] and [Extension.is_satisfied]:
    [for t in terms: if t in hay: return True], then the end of the body. *)
Fixpoint for_terms (terms : list string) (hay : string) : PyVal :=
  match terms with
  | [] => VNone
  | t :: terms' => if str_in t hay then VBool true else for_terms terms' hay
  end.

(** The generator [x in y for x in terms for y in segments]. *)
Definition cross_in (terms segments : list string) : list PyVal :=
  flat_map (fun x => map (fun y => VBool (str_in x y)) segments) terms.

Fixpoint is_satisfied (s : Specification) (item : Item) : PyVal :=
  match s with
  | AndSpecification args =>
      py_all (map (fun spec => is_satisfied spec item) args)
  | OrSpecification args =>
      py_any (map (fun spec => is_satisfied spec item) args)
  | NotSpecification spec =>
      py_not (is_satisfied spec item)
  | FileName file_names =>
      let item_file_names := lower (file_name item) in
      for_terms file_names item_file_names
  | FolderNames folder_name =>
      let item_folder_names := map lower (folder_names item) in
      if truthy (py_any (cross_in folder_name item_folder_names))
      then VBool true
      else VNone
  | Extension extensions =>
      let item_extension := lower (extension item) in
      for_terms extensions item_extension
  end.

(** The operators [&], [|] and [~] of [Specification]. *)
Definition __and__ (a b : Specification) : Specification :=
  AndSpecification [a; b].
Definition __or__ (a b : Specification) : Specification :=
  OrSpecification [a; b].
Definition __invert__ (a : Specification) : Specification :=
  NotSpecification a.

(** ** [SubjectFilter.filter], a generator *)

(** [f'found {count} files'] *)
Definition found_line (count : nat) : string :=
  ("found " ++ NilEmpty.string_of_uint (Nat.to_uint count) ++ " files")%string.

Module SubjectFilter.

(** The frame of a generator made by [filter]: suspended in front of the
    rest of [items] with the current [count], or finished. *)
Inductive Generator : Type :=
| Suspended (spec : Specification) (items : list Item) (count : nat)
| Finished.

(** What one [next] gives its caller: an item, or [StopIteration]. *)
Inductive Step : Type :=
| Yield (item : Item)
| StopIteration.

(** Calling the generator function runs none of its body. *)
Definition filter (items : list Item) (spec : Specification) : Generator :=
  Suspended spec items 0.

(** The [for] loop from where it was suspended up to the next [yield], or
    up to the [print] that follows the loop: what the caller gets, the frame
    left behind and the lines printed on the way. *)
Fixpoint resume (spec : Specification) (items : list Item) (count : nat)
  : Step * Generator * list string :=
  match items with
  | [] => (StopIteration, Finished, [found_line count])
  | item :: items' =>
      if truthy (is_satisfied spec item)
      then (Yield item, Suspended spec items' (count + 1), [])
      else resume spec items' count
  end.

Definition next (g : Generator) : Step * Generator * list string :=
  match g with
  | Suspended spec items count => resume spec items count
  | Finished => (StopIteration, Finished, [])
  end.

(** A consumer that pulls until [StopIteration], as [list(g)] or a [for]
    loop does; [fuel] bounds the number of calls of [next]. The result is
    the items received and the lines printed. *)
Fixpoint consume (fuel : nat) (g : Generator)
  : option (list Item * list string) :=
  match fuel with
  | 0 => None
  | S fuel' =>
      match next g with
      | (StopIteration, _, stdout) => Some ([], stdout)
      | (Yield item, g', stdout) =>
          match consume fuel' g' with
          | Some (received, stdout') =>
              Some (item :: received, stdout ++ stdout')
          | None => None
          end
      end
  end.

(** A consumer that asks for at most [k] items and then stops pulling, as a
    [for] loop left by [break] does: the items received, the frame left
    behind and the lines printed. *)
Fixpoint pull (k : nat) (g : Generator)
  : list Item * Generator * list string :=
  match k with
  | 0 => ([], g, [])
  | S k' =>
      match next g with
      | (StopIteration, g', stdout) => ([], g', stdout)
      | (Yield item, g', stdout) =>
          let '(received, g'', stdout') := pull k' g' in
          (item :: received, g'', stdout ++ stdout')
      end
  end.

End SubjectFilter.

(** ** [RecursiveFileLister.extract_file_info] *)

(** [os.path.sep] *)
Definition sep : ascii := "/"%char.

(** [p.rfind(c)]: the highest index of [c] in [p], or [-1]. *)
Fixpoint rfind (p : string) (c : ascii) : Z :=
  match p with
  | EmptyString => (-1)%Z
  | String a p' =>
      let r := rfind p' c in
      if (0 <=? r)%Z then (r + 1)%Z
      else if Ascii.eqb a c then 0%Z else (-1)%Z
  end.

(** [p[i:]] and [p[:i]] for an index [0 <= i]. *)
Definition slice_from (p : string) (i : Z) : string :=
  substring (Z.to_nat i) (String.length p - Z.to_nat i) p.
Definition slice_to (p : string) (i : Z) : string :=
  substring 0 (Z.to_nat i) p.

(** [c * n] *)
Fixpoint repeat_char (c : ascii) (n : nat) : string :=
  match n with
  | 0 => EmptyString
  | S n' => String c (repeat_char c n')
  end.

(** [s.rstrip(c)] *)
Fixpoint rstrip (s : string) (c : ascii) : string :=
  match s with
  | EmptyString => EmptyString
  | String a s' =>
      match rstrip s' c with
      | EmptyString => if Ascii.eqb a c then EmptyString else String a EmptyString
      | String _ _ as r => String a r
      end
  end.

(** [posixpath.basename] *)
Definition basename (p : string) : string :=
  let i := (rfind p sep + 1)%Z in
  slice_from p i.

(** [posixpath.dirname] *)
Definition dirname (p : string) : string :=
  let i := (rfind p sep + 1)%Z in
  let head := slice_to p i in
  if negb (String.eqb head EmptyString)
     && negb (String.eqb head (repeat_char sep (String.length head)))
  then rstrip head sep
  else head.

(** [s.split(c, maxsplit)] for a one-character separator; [None] stands for
    the default [maxsplit=-1], no limit. *)
Fixpoint split (s : string) (c : ascii) (maxsplit : option nat) : list string :=
  match s with
  | EmptyString => [EmptyString]
  | String a s' =>
      let cut :=
        Ascii.eqb a c &&
        match maxsplit with Some 0 => false | _ => true end in
      if cut
      then EmptyString :: split s' c (option_map pred maxsplit)
      else match split s' c maxsplit with
           | w :: ws => String a w :: ws
           | [] => [String a EmptyString]
           end
  end.

Inductive Exception : Type :=
| ValueError.

Inductive Result (A : Type) : Type :=
| Ok (a : A)
| Raise (e : Exception).
Arguments Ok {A} a.
Arguments Raise {A} e.

(** [s.endswith(c)] for a one-character [c]. *)
Fixpoint endswith (s : string) (c : ascii) : bool :=
  match s with
  | EmptyString => false
  | String a s' =>
      match s' with
      | EmptyString => Ascii.eqb a c
      | String _ _ => endswith s' c
      end
  end.

(** [posixpath.join(a, b)] *)
Definition join (a b : string) : string :=
  if startswith b (String sep EmptyString) then b
  else if String.eqb a EmptyString || endswith a sep then (a ++ b)%string
  else (a ++ String sep b)%string.

(** [l.sort()] for a list of [str], which Python orders by code points,
    here [String.leb]. The order is total and antisymmetric, so the sorted
    list is determined by the elements of [l] (lemma [sorted_unique]) and
    the sorting algorithm plays no role; insertion sort stands for it. *)
Fixpoint insert_sorted (x : string) (l : list string) : list string :=
  match l with
  | [] => [x]
  | y :: l' => if String.leb x y then x :: l else y :: insert_sorted x l'
  end.

Fixpoint sort (l : list string) : list string :=
  match l with
  | [] => []
  | x :: l' => insert_sorted x (sort l')
  end.

(** What [os.walk] yields: tuples [(root, dirs, files)]. *)
Definition WalkEntry : Type := (string * list string * list string)%type.

Module RecursiveFileLister.

Definition extract_file_info (file_path : string) : Result Item :=
  let file_name := basename file_path in
  (* unpacking the list into two names *)
  match split file_name "."%char (Some 1) with
  | [file_base_name; extension] =>
      let folder_names := split (dirname file_path) sep None in
      let folder_names :=
        List.filter (fun x => negb (String.eqb x EmptyString)) folder_names in
      Ok {| file_path := file_path;
            file_name := file_name;
            extension := extension;
            file_base_name := file_base_name;
            folder_names := folder_names |}
  | _ => Raise ValueError
  end.

(** The loop [for file_path in file_paths:
    extracted_paths.append(self.extract_file_info(file_path))]; an
    exception leaves the loop and the method. *)
Fixpoint extract_each (file_paths : list string) : Result (list Item) :=
  match file_paths with
  | [] => Ok []
  | file_path :: file_paths' =>
      match extract_file_info file_path with
      | Raise e => Raise e
      | Ok item =>
          match extract_each file_paths' with
          | Raise e => Raise e
          | Ok extracted_paths => Ok (item :: extracted_paths)
          end
      end
  end.

(** The paths collected by the first loop of [__call__]. *)
Definition listed_paths (walk : list WalkEntry) : list string :=
  flat_map (fun entry : WalkEntry =>
              let '(root, dirs, files) := entry in
              map (fun file => join root file) files) walk.

(** [__call__], given what [os.walk(self.path)] yields. *)
Definition __call__ (walk : list WalkEntry) : Result (list Item) :=
  let file_paths := listed_paths walk in
  let file_paths := sort file_paths in
  extract_each file_paths.

End RecursiveFileLister.


(** ** Notions used in the statements *)

(** [x] is a substring of [y]. *)
Definition occurs_in (x y : string) : Prop :=
  exists pre post : string, y = (pre ++ x ++ post)%string.

(** Two items as [extract_file_info] builds them, used as concrete inputs. *)
Definition item_notes : Item :=
  {| file_path := "/data/old/notes.txt";
     file_name := "notes.txt";
     extension := "txt";
     file_base_name := "notes";
     folder_names := ["data"; "old"] |}.

Definition item_photo : Item :=
  {| file_path := "/data/Foobar/Photo.JPG";
     file_name := "Photo.JPG";
     extension := "JPG";
     file_base_name := "Photo";
     folder_names := ["data"; "Foobar"] |}.

(** The reading of the primitives in which both the item's field and the
    terms are lowercased before the comparison. *)
Definition FileName_case_insensitive (terms : list string) (R : Item) : Prop :=
  is_satisfied (FileName terms) R = VBool true
  <-> exists t, In t terms /\ occurs_in (lower t) (lower (file_name R)).

Definition Extension_case_insensitive (terms : list string) (R : Item) : Prop :=
  is_satisfied (Extension terms) R = VBool true
  <-> exists t, In t terms /\ occurs_in (lower t) (lower (extension R)).

Definition FolderNames_case_insensitive (terms : list string) (R : Item)
  : Prop :=
  (is_satisfied (FolderNames terms) R = VBool true
   <-> exists t f, In t terms /\ In f (folder_names R)
                   /\ occurs_in (lower t) (lower f))
  /\ ((forall t f, In t terms -> In f (folder_names R) ->
                   ~ occurs_in (lower t) (lower f)) ->
      is_satisfied (FolderNames terms) R = VBool false).

(** The items of [items] that satisfy [spec], in the order of [items]. *)
Definition satisfying (spec : Specification) (items : list Item) : list Item :=
  List.filter (fun R => truthy (is_satisfied spec R)) items.

(** ** The specification of the entry point *)

(** The shape of the expression under [if __name__ == '__main__']:
    [a | b & ~c & d & e]. In Python [~] binds tighter than [&], [&] tighter
    than [|], and [&] associates to the left, so the calls made are
    [a.__or__(((b.__and__(c.__invert__())).__and__(d)).__and__(e))]. *)
Definition main_expression (a b c d e : Specification) : Specification :=
  __or__ a (__and__ (__and__ (__and__ b (__invert__ c)) d) e).

Definition main_spec : Specification :=
  main_expression
    (FileName ["my_special_name"])
    (FileName ["second_special_name"])
    (FileName ["this_is_bad_data"])
    (FolderNames ["my_folder_name"; "sometimes_this_name"])
    (Extension ["img"; "jpg"]).

(** An uppercase ASCII letter, and a string that has one. *)
Definition is_upper (c : ascii) : bool :=
  let n := nat_of_ascii c in ((65 <=? n)%nat && (n <=? 90)%nat)%bool.

Fixpoint has_upper (s : string) : bool :=
  match s with
  | EmptyString => false
  | String c s' => is_upper c || has_upper s'
  end.

(** The two statements that compute [folder_names] in [extract_file_info],
    applied to a directory [d]: [[x for x in d.split(os.path.sep) if x]]. *)
Definition nonempty_segments (d : string) : list string :=
  List.filter (fun x => negb (String.eqb x EmptyString)) (split d sep None).

(** The order of [str], as a relation. *)
Definition str_le (a b : string) : Prop := String.leb a b = true.

(** What [os.walk] guarantees about an entry: the names in [files] are
    names of directory entries, without path separator. *)
Definition plain_names (entry : WalkEntry) : Prop :=
  let '(root, dirs, files) := entry in
  Forall (fun file => str_in "/" file = false) files.

(** ** The loop of the entry point *)

(** [f'process -> {subject["file_path"]}'] *)
Definition process_line (subject : Item) : string :=
  ("process -> " ++ file_path subject)%string.

(** [for subject in sf.filter(extracted_files, spec): print(...)]: the lines
    printed by the generator and by the body of the loop, in the order in
    which they are printed; [fuel] bounds the number of calls of [next]. *)
Fixpoint main_loop (fuel : nat) (g : SubjectFilter.Generator)
  : option (list string) :=
  match fuel with
  | 0 => None
  | S fuel' =>
      match SubjectFilter.next g with
      | (SubjectFilter.StopIteration, _, stdout) => Some stdout
      | (SubjectFilter.Yield subject, g', stdout) =>
          match main_loop fuel' g' with
          | Some stdout' => Some (stdout ++ process_line subject :: stdout')
          | None => None
          end
      end
  end.

(** * Properties *)

(** ** Truth values *)

Lemma truthy_true (v : PyVal) : truthy v = true <-> v = VBool true.
Proof.
  destruct v as [[|]|]; simpl; split; intros H; try reflexivity;
    try discriminate H.
Qed.

Lemma truthy_false (v : PyVal) :
  truthy v = false <-> v = VBool false \/ v = VNone.
Proof.
  destruct v as [[|]|]; simpl; split; intros H; auto; try discriminate H;
    destruct H as [H|H]; discriminate H.
Qed.

Lemma py_all_forallb (vs : list PyVal) :
  py_all vs = VBool (forallb truthy vs).
Proof.
  induction vs as [|v vs IH]; simpl; [reflexivity|].
  destruct (truthy v); simpl; [exact IH | reflexivity].
Qed.

Lemma py_any_existsb (vs : list PyVal) :
  py_any vs = VBool (existsb truthy vs).
Proof.
  induction vs as [|v vs IH]; simpl; [reflexivity|].
  destruct (truthy v); simpl; [reflexivity | exact IH].
Qed.

Lemma VBool_inj (a b : bool) : VBool a = VBool b <-> a = b.
Proof. split; intros H; [injection H; auto | now subst]. Qed.

Lemma py_all_true (vs : list PyVal) :
  py_all vs = VBool true <-> Forall (fun v => v = VBool true) vs.
Proof.
  rewrite py_all_forallb, VBool_inj, forallb_forall, Forall_forall.
  split; intros H v Hv; apply truthy_true, H, Hv.
Qed.

Lemma py_any_true (vs : list PyVal) :
  py_any vs = VBool true <-> Exists (fun v => v = VBool true) vs.
Proof.
  rewrite py_any_existsb, VBool_inj, existsb_exists, Exists_exists.
  split; intros [v [Hv H]]; exists v; split; auto; apply truthy_true, H.
Qed.

Lemma forallb_through_map {A B : Type} (f : A -> B) (p : B -> bool)
  (l : list A) : forallb p (map f l) = forallb (fun a => p (f a)) l.
Proof. induction l as [|a l IH]; simpl; [|rewrite IH]; reflexivity. Qed.

Lemma existsb_through_map {A B : Type} (f : A -> B) (p : B -> bool)
  (l : list A) : existsb p (map f l) = existsb (fun a => p (f a)) l.
Proof. induction l as [|a l IH]; simpl; [|rewrite IH]; reflexivity. Qed.

(** ** The combinators *)

Section Combinators.

Variable R : Item.

Lemma and_is_satisfied (args : list Specification) :
  is_satisfied (AndSpecification args) R
  = VBool (forallb (fun c => truthy (is_satisfied c R)) args).
Proof.
  simpl. rewrite py_all_forallb, forallb_through_map. reflexivity.
Qed.

Lemma or_is_satisfied (args : list Specification) :
  is_satisfied (OrSpecification args) R
  = VBool (existsb (fun c => truthy (is_satisfied c R)) args).
Proof.
  simpl. rewrite py_any_existsb, existsb_through_map. reflexivity.
Qed.

Lemma not_is_satisfied (c : Specification) :
  is_satisfied (NotSpecification c) R
  = VBool (negb (truthy (is_satisfied c R))).
Proof. reflexivity. Qed.

(** The laws hold between truth values, whatever the children return. *)

Lemma double_negation_truthy (s : Specification) :
  truthy (is_satisfied (NotSpecification (NotSpecification s)) R)
  = truthy (is_satisfied s R).
Proof. simpl. apply negb_involutive. Qed.

Lemma singleton_and_truthy (s : Specification) :
  truthy (is_satisfied (AndSpecification [s]) R) = truthy (is_satisfied s R).
Proof. rewrite and_is_satisfied. simpl. apply andb_true_r. Qed.

Lemma singleton_or_truthy (s : Specification) :
  truthy (is_satisfied (OrSpecification [s]) R) = truthy (is_satisfied s R).
Proof. rewrite or_is_satisfied. simpl. apply orb_false_r. Qed.

(** They hold between the returned values as soon as the child returns a
    boolean, which every combinator does. *)

Lemma double_negation_bool (s : Specification) (b : bool) :
  is_satisfied s R = VBool b ->
  is_satisfied (NotSpecification (NotSpecification s)) R = is_satisfied s R.
Proof.
  intros H. simpl. rewrite H. unfold py_not. simpl.
  now rewrite negb_involutive.
Qed.

Lemma singleton_bool (s : Specification) (b : bool) :
  is_satisfied s R = VBool b ->
  is_satisfied (AndSpecification [s]) R = is_satisfied s R
  /\ is_satisfied (OrSpecification [s]) R = is_satisfied s R.
Proof.
  intros H. simpl. rewrite H. destruct b; split; reflexivity.
Qed.

Lemma de_morgan (a b : Specification) :
  is_satisfied (NotSpecification (AndSpecification [a; b])) R
  = is_satisfied
      (OrSpecification [NotSpecification a; NotSpecification b]) R.
Proof.
  simpl. destruct (truthy (is_satisfied a R)),
    (truthy (is_satisfied b R)); reflexivity.
Qed.

End Combinators.

Lemma items_as_extracted :
  RecursiveFileLister.extract_file_info "/data/old/notes.txt" = Ok item_notes
  /\ RecursiveFileLister.extract_file_info "/data/Foobar/Photo.JPG"
     = Ok item_photo.
Proof. split; reflexivity. Qed.

(** C1. For every item [R]: [AndSpecification(c1..cN).is_satisfied(R)] is
    [True] iff every child's [is_satisfied(R)] is [True];
    [OrSpecification(c1..cN).is_satisfied(R)] is [True] iff the
    [is_satisfied(R)] of at least one child is [True]; and
    [NotSpecification(c).is_satisfied(R)] is [True] iff [c.is_satisfied(R)]
    is false, that is, tests false in [not] (the value [False], or the
    [None] of a primitive that matched nothing). *)
Theorem combinators_truth_conditions (R : Item) :
  (forall args : list Specification,
      is_satisfied (AndSpecification args) R = VBool true
      <-> Forall (fun c => is_satisfied c R = VBool true) args)
  /\ (forall args : list Specification,
      is_satisfied (OrSpecification args) R = VBool true
      <-> Exists (fun c => is_satisfied c R = VBool true) args)
  /\ (forall c : Specification,
      is_satisfied (NotSpecification c) R = VBool true
      <-> truthy (is_satisfied c R) = false).
Proof.
  split; [|split].
  - intros args. simpl. rewrite py_all_true, Forall_map. reflexivity.
  - intros args. simpl. rewrite py_any_true, Exists_map. reflexivity.
  - intros c. rewrite not_is_satisfied, VBool_inj. apply negb_true_iff.
Qed.

(** C7. The double negation law, as an equality of returned values, fails
    on a primitive that matches nothing: [FileName("photo")] returns [None]
    on [notes.txt], and its double negation returns [False]. *)
Theorem double_negation_on_unmatched_primitive :
  is_satisfied (FileName ["photo"]) item_notes = VNone
  /\ is_satisfied
       (NotSpecification (NotSpecification (FileName ["photo"]))) item_notes
     = VBool false
  /\ is_satisfied
       (NotSpecification (NotSpecification (FileName ["photo"]))) item_notes
     <> is_satisfied (FileName ["photo"]) item_notes.
Proof.
  split; [reflexivity | split; [reflexivity | discriminate]].
Qed.

(** C8. The singleton identity law, as an equality of returned values,
    fails on a primitive that matches nothing: [And(S)] and [Or(S)] return
    [False] where [S] itself returns [None]. *)
Theorem singleton_on_unmatched_primitive :
  is_satisfied (Extension ["jpg"]) item_notes = VNone
  /\ is_satisfied (AndSpecification [Extension ["jpg"]]) item_notes
     = VBool false
  /\ is_satisfied (OrSpecification [Extension ["jpg"]]) item_notes
     = VBool false
  /\ is_satisfied (AndSpecification [Extension ["jpg"]]) item_notes
     <> is_satisfied (Extension ["jpg"]) item_notes
  /\ is_satisfied (OrSpecification [Extension ["jpg"]]) item_notes
     <> is_satisfied (Extension ["jpg"]) item_notes.
Proof.
  repeat split; try reflexivity; discriminate.
Qed.

(** C10. For every item [R], an [AndSpecification] without children is
    satisfied and an [OrSpecification] without children is not; put next to
    any specification [s] inside a composite of the same kind, the empty
    composite leaves the truth value of [s] unchanged. *)
Theorem empty_composites (R : Item) :
  is_satisfied (AndSpecification []) R = VBool true
  /\ is_satisfied (OrSpecification []) R = VBool false
  /\ (forall s : Specification,
        truthy (is_satisfied (AndSpecification [AndSpecification []; s]) R)
        = truthy (is_satisfied s R)
        /\ truthy (is_satisfied (AndSpecification [s; AndSpecification []]) R)
           = truthy (is_satisfied s R))
  /\ (forall s : Specification,
        truthy (is_satisfied (OrSpecification [OrSpecification []; s]) R)
        = truthy (is_satisfied s R)
        /\ truthy (is_satisfied (OrSpecification [s; OrSpecification []]) R)
           = truthy (is_satisfied s R)).
Proof.
  split; [reflexivity | split; [reflexivity | split]];
    intros s; simpl; destruct (truthy (is_satisfied s R)); split; reflexivity.
Qed.

(** ** Substrings *)

Lemma startswith_spec (x y : string) :
  startswith y x = true <-> exists post, y = (x ++ post)%string.
Proof.
  revert y. induction x as [|a x IH]; intros y; simpl.
  - split; [intros _; exists y; reflexivity | reflexivity].
  - destruct y as [|b y].
    + split; [discriminate | intros [post H]; discriminate H].
    + rewrite andb_true_iff, Ascii.eqb_eq, IH. split.
      * intros [-> [post ->]]. exists post. reflexivity.
      * intros [post H]. injection H as -> ->. split; [reflexivity|].
        exists post. reflexivity.
Qed.

Lemma str_in_spec (x y : string) : str_in x y = true <-> occurs_in x y.
Proof.
  unfold occurs_in. induction y as [|b y IH]; simpl.
  - rewrite orb_false_r, startswith_spec. split.
    + intros [post H]. exists EmptyString, post. exact H.
    + intros [[|c pre] [post H]]; [exists post; exact H | discriminate H].
  - rewrite orb_true_iff, startswith_spec, IH. split.
    + intros [[post H] | [pre [post H]]].
      * exists EmptyString, post. exact H.
      * exists (String b pre), post. simpl. now rewrite H.
    + intros [[|c pre] [post H]].
      * left. exists post. exact H.
      * right. simpl in H. injection H as _ H. exists pre, post. exact H.
Qed.

Lemma str_in_false (x y : string) : str_in x y = false <-> ~ occurs_in x y.
Proof.
  rewrite <- str_in_spec. destruct (str_in x y); split; intros H.
  - discriminate H.
  - exfalso. apply H. reflexivity.
  - intros H'. discriminate H'.
  - reflexivity.
Qed.

(** ** The primitives *)

Lemma for_terms_true (terms : list string) (hay : string) :
  for_terms terms hay = VBool true
  <-> exists t, In t terms /\ occurs_in t hay.
Proof.
  induction terms as [|t terms IH]; simpl.
  - split; [discriminate | intros [t [[] _]]].
  - destruct (str_in t hay) eqn:E.
    + split; [intros _ | reflexivity].
      exists t. split; [now left | now apply str_in_spec].
    + rewrite IH. split.
      * intros [u [Hu H]]. exists u. split; [now right | exact H].
      * intros [u [[<- | Hu] H]].
        -- apply str_in_spec in H. congruence.
        -- exists u. split; assumption.
Qed.

Lemma for_terms_None (terms : list string) (hay : string) :
  (forall t, In t terms -> ~ occurs_in t hay) -> for_terms terms hay = VNone.
Proof.
  induction terms as [|t terms IH]; simpl; intros H; [reflexivity|].
  destruct (str_in t hay) eqn:E.
  - exfalso. apply (H t); [now left | now apply str_in_spec].
  - apply IH. intros u Hu. apply H. now right.
Qed.

Lemma cross_in_true (terms segments : list string) :
  truthy (py_any (cross_in terms segments)) = true
  <-> exists t f, In t terms /\ In f segments /\ occurs_in t f.
Proof.
  rewrite py_any_existsb. simpl. rewrite existsb_exists. unfold cross_in.
  split.
  - intros [v [Hv Ht]]. apply in_flat_map in Hv as [t [Ht' Hv]].
    apply in_map_iff in Hv as [f [<- Hf]]. simpl in Ht.
    exists t, f. repeat split; auto. now apply str_in_spec.
  - intros [t [f [Ht [Hf H]]]]. exists (VBool (str_in t f)). split.
    + apply in_flat_map. exists t. split; [exact Ht|].
      apply in_map_iff. exists f. split; [reflexivity | exact Hf].
    + simpl. now apply str_in_spec.
Qed.

Lemma FolderNames_true (terms : list string) (R : Item) :
  is_satisfied (FolderNames terms) R = VBool true
  <-> exists t f, In t terms /\ In f (folder_names R)
                  /\ occurs_in t (lower f).
Proof.
  assert (E : truthy (py_any (cross_in terms (map lower (folder_names R))))
              = true
              <-> exists t f, In t terms /\ In f (folder_names R)
                              /\ occurs_in t (lower f)).
  { rewrite cross_in_true. split.
    - intros [t [g [Ht [Hg H]]]]. apply in_map_iff in Hg as [f [<- Hf]].
      exists t, f. auto.
    - intros [t [f [Ht [Hf H]]]]. exists t, (lower f).
      repeat split; auto. now apply in_map. }
  rewrite <- E. simpl.
  destruct (truthy (py_any (cross_in terms (map lower (folder_names R)))));
    split; intros H; try reflexivity; discriminate H.
Qed.

(** A primitive that matches nothing reaches the end of its body. *)
Lemma unmatched_primitive_None (terms : list string) (R : Item) :
  ((forall t, In t terms -> ~ occurs_in t (lower (file_name R))) ->
   is_satisfied (FileName terms) R = VNone)
  /\ ((forall t, In t terms -> ~ occurs_in t (lower (extension R))) ->
      is_satisfied (Extension terms) R = VNone)
  /\ ((forall t f, In t terms -> In f (folder_names R) ->
                   ~ occurs_in t (lower f)) ->
      is_satisfied (FolderNames terms) R = VNone).
Proof.
  split; [|split]; intros H.
  - simpl. now apply for_terms_None.
  - simpl. now apply for_terms_None.
  - pose proof (FolderNames_true terms R) as E. simpl in *.
    destruct (truthy (py_any (cross_in terms (map lower (folder_names R))))).
    + destruct E as [E _]. destruct (E eq_refl) as [t [f [Ht [Hf Ho]]]].
      exfalso. exact (H t f Ht Hf Ho).
    + reflexivity.
Qed.

(** No primitive ever returns [False]. *)
Lemma primitive_never_False (terms : list string) (R : Item) :
  is_satisfied (FileName terms) R <> VBool false
  /\ is_satisfied (Extension terms) R <> VBool false
  /\ is_satisfied (FolderNames terms) R <> VBool false.
Proof.
  assert (F : forall hay, for_terms terms hay <> VBool false).
  { intros hay. induction terms as [|t terms IH]; simpl; [discriminate|].
    destruct (str_in t hay); [discriminate | exact IH]. }
  split; [apply F | split; [apply F|]]. simpl.
  destruct (truthy (py_any (cross_in terms (map lower (folder_names R)))));
    discriminate.
Qed.

(** With terms that are already lowercase the comparison is the
    case-insensitive one. *)
Lemma lowercase_terms_case_insensitive (terms : list string) (R : Item) :
  Forall (fun t => lower t = t) terms ->
  FileName_case_insensitive terms R /\ Extension_case_insensitive terms R.
Proof.
  intros L. rewrite Forall_forall in L.
  unfold FileName_case_insensitive, Extension_case_insensitive. simpl.
  rewrite !for_terms_true.
  split; split; intros [t [Ht H]]; exists t; split; auto;
    (rewrite (L t Ht) || rewrite (L t Ht) in H); exact H.
Qed.

(** C3, as stated, fails: the terms are compared as given. [FileName("Photo")]
    does not match the file [Photo.JPG], nor does [Extension("JPG")], although
    the lowercased name and extension contain the lowercased terms. *)
Lemma case_insensitive_terms_counterexample :
  ~ FileName_case_insensitive ["Photo"] item_photo
  /\ ~ Extension_case_insensitive ["JPG"] item_photo.
Proof.
  split; intros [_ H].
  - assert (E : is_satisfied (FileName ["Photo"]) item_photo = VBool true).
    { apply H. exists "Photo". split; [now left|].
      apply str_in_spec. reflexivity. }
    discriminate E.
  - assert (E : is_satisfied (Extension ["JPG"]) item_photo = VBool true).
    { apply H. exists "JPG". split; [now left|].
      apply str_in_spec. reflexivity. }
    discriminate E.
Qed.

(** C3, amended. For every item [R] and every tuple of terms: [FileName] is
    satisfied by [R] iff the lowercased [file_name] of [R] contains some
    term, taken as it was given, as a substring; [Extension] is satisfied
    by [R] iff the lowercased [extension] of [R] contains some term, taken
    as it was given, as a substring. *)
Theorem name_and_extension_terms_as_given (terms : list string) (R : Item) :
  (is_satisfied (FileName terms) R = VBool true
   <-> exists t, In t terms /\ occurs_in t (lower (file_name R)))
  /\ (is_satisfied (Extension terms) R = VBool true
      <-> exists t, In t terms /\ occurs_in t (lower (extension R))).
Proof.
  split; simpl; apply for_terms_true.
Qed.

(** C4, as stated, fails: [FolderNames("Foobar")] does not match a file
    below the folder [Foobar]. *)
Lemma case_insensitive_folder_counterexample :
  ~ FolderNames_case_insensitive ["Foobar"] item_photo.
Proof.
  intros [[_ H] _].
  assert (E : is_satisfied (FolderNames ["Foobar"]) item_photo = VBool true).
  { apply H. exists "Foobar", "Foobar". split; [now left|].
    split; [right; now left|]. apply str_in_spec. reflexivity. }
  discriminate E.
Qed.

(** C4, amended. For every item [R] and every tuple of terms: [FolderNames]
    is satisfied by [R] iff some term, taken as it was given, is a substring
    of the lowercased form of some folder-name segment of [R] (any term
    against any segment); when no lowercased segment contains any term, it
    is not satisfied. *)
Theorem folder_terms_as_given (terms : list string) (R : Item) :
  (is_satisfied (FolderNames terms) R = VBool true
   <-> exists t f, In t terms /\ In f (folder_names R)
                   /\ occurs_in t (lower f))
  /\ ((forall t f, In t terms -> In f (folder_names R) ->
                   ~ occurs_in t (lower f)) ->
      truthy (is_satisfied (FolderNames terms) R) = false).
Proof.
  split; [apply FolderNames_true|].
  intros H. destruct (unmatched_primitive_None terms R) as [_ [_ N]].
  rewrite (N H). reflexivity.
Qed.

Lemma folder_terms_as_given_witness :
  (forall t f, In t ["foo"] -> In f (folder_names item_notes) ->
               ~ occurs_in t (lower f))
  /\ truthy (is_satisfied (FolderNames ["foo"]) item_notes) = false.
Proof.
  assert (H : forall t f, In t ["foo"] -> In f (folder_names item_notes) ->
                          ~ occurs_in t (lower f)).
  { intros t f [<-|[]] [<-|[<-|[]]]; apply str_in_false; reflexivity. }
  split; [exact H|].
  exact (proj2 (folder_terms_as_given ["foo"] item_notes) H).
Defined.

(** C6. A primitive whose terms match nothing does not return [False]:
    each of the three returns [None] on [notes.txt]. *)
Theorem unmatched_primitives_return_None :
  is_satisfied (FileName ["photo"]) item_notes = VNone
  /\ is_satisfied (FolderNames ["foobar"]) item_notes = VNone
  /\ is_satisfied (Extension ["img"; "jpg"]) item_notes = VNone
  /\ VNone <> VBool false.
Proof.
  repeat split; try reflexivity. discriminate.
Qed.

(** ** The filter *)

Lemma string_length_append (s t : string) :
  String.length (s ++ t)%string = String.length s + String.length t.
Proof. induction s as [|c s IH]; simpl; [|rewrite IH]; reflexivity. Qed.

Lemma string_append_inv_tail (s1 s2 t : string) :
  (s1 ++ t)%string = (s2 ++ t)%string -> s1 = s2.
Proof.
  revert s2. induction s1 as [|c s1 IH]; intros [|d s2] H; simpl in H.
  - reflexivity.
  - apply (f_equal String.length) in H. simpl in H.
    rewrite string_length_append in H. lia.
  - apply (f_equal String.length) in H. simpl in H.
    rewrite string_length_append in H. lia.
  - injection H as -> H. f_equal. now apply IH.
Qed.

(** The printed line determines the count. *)
Lemma found_line_inj (n m : nat) : found_line n = found_line m -> n = m.
Proof.
  unfold found_line. intros H. simpl in H. injection H as H.
  apply string_append_inv_tail in H.
  apply (f_equal NilEmpty.uint_of_string) in H.
  rewrite !NilEmpty.usu in H. injection H as H.
  apply (f_equal Nat.of_uint) in H.
  now rewrite !DecimalNat.Unsigned.of_to in H.
Qed.

Section Filter.

Import SubjectFilter.

Variable spec : Specification.

Lemma consume_suspended (items : list Item) :
  forall (count fuel : nat),
    List.length items < fuel ->
    consume fuel (Suspended spec items count)
    = Some (satisfying spec items,
            [found_line (count + List.length (satisfying spec items))]).
Proof.
  induction items as [|item items IH]; intros count fuel Hfuel.
  - destruct fuel as [|fuel]; [inversion Hfuel|].
    simpl. now rewrite Nat.add_0_r.
  - destruct fuel as [|fuel]; [inversion Hfuel|].
    simpl in Hfuel.
    assert (Hlt : List.length items < fuel) by lia.
    unfold satisfying. cbn [consume next resume List.filter].
    destruct (truthy (is_satisfied spec item)) eqn:E.
    + rewrite (IH (count + 1) fuel Hlt). unfold satisfying.
      cbn [List.length app]. do 4 f_equal. lia.
    + assert (Hlt' : List.length items < S fuel) by lia.
      specialize (IH count (S fuel) Hlt').
      cbn [consume next] in IH. exact IH.
Qed.

(** Once it has stopped, the generator stays stopped and prints nothing. *)
Lemma next_after_exhaustion (items : list Item) (count : nat) (g : Generator)
  (stdout : list string) :
  next (Suspended spec items count) = (StopIteration, g, stdout) ->
  next g = (StopIteration, Finished, []).
Proof.
  revert count. induction items as [|item items IH]; intros count; simpl.
  - intros H. injection H as <- _. reflexivity.
  - destruct (truthy (is_satisfied spec item)); [discriminate|]. apply IH.
Qed.

(** The first call of [next] gives the first satisfying item and prints
    nothing: the count is reported only by the call that finds the input
    used up. *)
Lemma next_yields_first (items : list Item) (count : nat) (item : Item)
  (g : Generator) (stdout : list string) :
  next (Suspended spec items count) = (Yield item, g, stdout) ->
  List.hd_error (satisfying spec items) = Some item /\ stdout = [].
Proof.
  revert count. induction items as [|i items IH]; intros count; simpl.
  - discriminate.
  - destruct (truthy (is_satisfied spec i)) eqn:E.
    + intros H. injection H as -> _ <-. split; reflexivity.
    + apply IH.
Qed.

Lemma satisfying_In (items : list Item) (R : Item) :
  In R (satisfying spec items)
  <-> In R items /\ is_satisfied spec R = VBool true.
Proof.
  unfold satisfying. rewrite filter_In, truthy_true. reflexivity.
Qed.

End Filter.

(** C2. For every finite sequence [items] and every specification [spec],
    pulling from [SubjectFilter.filter(items, spec)] until it stops (any
    number of calls of [next] above the length of [items] is enough) gives
    exactly the items whose [is_satisfied] is [True], in the order of
    [items], and then prints [found n files] where [n] is the number of
    items given; on an empty input nothing is given and the line is
    [found 0 files]. *)
Theorem filter_yields_satisfying_in_order
  (items : list Item) (spec : Specification) :
  (forall fuel : nat,
      List.length items < fuel ->
      SubjectFilter.consume fuel (SubjectFilter.filter items spec)
      = Some (satisfying spec items,
              [found_line (List.length (satisfying spec items))]))
  /\ (forall R : Item,
        In R (satisfying spec items)
        <-> In R items /\ is_satisfied spec R = VBool true)
  /\ SubjectFilter.consume 1 (SubjectFilter.filter [] spec)
     = Some ([], ["found 0 files"]).
Proof.
  split; [|split].
  - intros fuel Hfuel. unfold SubjectFilter.filter.
    now rewrite (consume_suspended spec items 0 fuel Hfuel).
  - intros R. apply satisfying_In.
  - reflexivity.
Qed.

Lemma filter_yields_satisfying_in_order_witness :
  List.length [item_notes; item_photo; item_notes; item_photo; item_notes] < 6
  /\ SubjectFilter.consume 6
       (SubjectFilter.filter
          [item_notes; item_photo; item_notes; item_photo; item_notes]
          (Extension ["img"; "jpg"]))
     = Some ([item_photo; item_photo], ["found 2 files"]).
Proof.
  split; [simpl; lia|].
  apply (proj1 (filter_yields_satisfying_in_order
                  [item_notes; item_photo; item_notes; item_photo; item_notes]
                  (Extension ["img"; "jpg"])) 6).
  simpl; lia.
Defined.

(** ** Record extraction *)

Section Split.

Variable c : ascii.

Lemma char_in_cons (a : ascii) (s : string) :
  str_in (String c EmptyString) (String a s)
  = Ascii.eqb c a || str_in (String c EmptyString) s.
Proof. simpl. now rewrite andb_true_r. Qed.

(** [s.split(c, 0)] is [[s]]. *)
Lemma split_maxsplit_0 (s : string) : split s c (Some 0) = [s].
Proof.
  induction s as [|a s IH]; simpl; [reflexivity|].
  rewrite andb_false_r, IH. reflexivity.
Qed.

(** [s.split(c, 1)] is [[s]] when [c] is not in [s], and otherwise the
    text before the first [c] and the text after it. *)
Lemma split_maxsplit_1 (s : string) :
  if str_in (String c EmptyString) s
  then exists b e : string,
      split s c (Some 1) = [b; e]
      /\ s = (b ++ String c e)%string
      /\ str_in (String c EmptyString) b = false
  else split s c (Some 1) = [s].
Proof.
  induction s as [|a s IH]; [reflexivity|].
  rewrite char_in_cons. cbn [split option_map pred].
  rewrite Ascii.eqb_sym. destruct (Ascii.eqb_spec a c) as [->|Hne].
  - cbn [andb orb]. rewrite split_maxsplit_0.
    exists EmptyString, s. repeat split; reflexivity.
  - cbn [andb orb]. destruct (str_in (String c EmptyString) s).
    + destruct IH as [b [e [Hs [Heq Hb]]]]. rewrite Hs.
      exists (String a b), e. repeat split.
      * simpl. now rewrite Heq.
      * rewrite char_in_cons, Hb, orb_false_r.
        apply Ascii.eqb_neq. congruence.
    + now rewrite IH.
Qed.

End Split.

(** C5. Extraction splits the file name at its first dot only:
    [extract_file_info("/a/b/report.tar.gz")] has [file_name]
    [report.tar.gz], [file_base_name] [report], [extension] [tar.gz] and
    [folder_names] [a], [b]; and for every path whose final component
    contains a dot, extraction returns an item in which [file_name] is
    [file_base_name + "." + extension], [file_base_name] has no dot, and
    [folder_names] has no empty segment. *)
Theorem extract_file_info_first_dot :
  RecursiveFileLister.extract_file_info "/a/b/report.tar.gz"
  = Ok {| file_path := "/a/b/report.tar.gz";
          file_name := "report.tar.gz";
          extension := "tar.gz";
          file_base_name := "report";
          folder_names := ["a"; "b"] |}
  /\ forall p : string,
      str_in "." (basename p) = true ->
      exists R : Item,
        RecursiveFileLister.extract_file_info p = Ok R
        /\ file_name R = (file_base_name R ++ "." ++ extension R)%string
        /\ str_in "." (file_base_name R) = false
        /\ ~ In EmptyString (folder_names R).
Proof.
  split; [reflexivity|].
  intros p Hdot. unfold RecursiveFileLister.extract_file_info.
  pose proof (split_maxsplit_1 "."%char (basename p)) as S1.
  rewrite Hdot in S1. destruct S1 as [b [e [Hs [Heq Hb]]]].
  rewrite Hs. eexists. split; [reflexivity|]. cbn [file_name file_base_name
    extension folder_names]. repeat split; [exact Heq | exact Hb |].
  intros Hin. apply filter_In in Hin as [_ Hin]. discriminate Hin.
Qed.

Lemma extract_file_info_first_dot_witness :
  str_in "." (basename "/home/user/.config/archive.v1.zip") = true
  /\ exists R : Item,
      RecursiveFileLister.extract_file_info "/home/user/.config/archive.v1.zip"
      = Ok R
      /\ file_name R = (file_base_name R ++ "." ++ extension R)%string
      /\ str_in "." (file_base_name R) = false
      /\ ~ In EmptyString (folder_names R).
Proof.
  split; [reflexivity|].
  apply (proj2 extract_file_info_first_dot). reflexivity.
Defined.

(** C9. For every path whose final component contains no dot, extraction
    raises [ValueError] (the list returned by [split] has one element and
    cannot be unpacked into two names); no item is produced. *)
Theorem extract_file_info_no_dot (p : string) :
  str_in "." (basename p) = false ->
  RecursiveFileLister.extract_file_info p = Raise ValueError.
Proof.
  intros Hdot. unfold RecursiveFileLister.extract_file_info.
  pose proof (split_maxsplit_1 "."%char (basename p)) as S1.
  rewrite Hdot in S1. rewrite S1. reflexivity.
Qed.

Lemma extract_file_info_no_dot_witness :
  str_in "." (basename "/usr/local.d/bin/Makefile") = false
  /\ RecursiveFileLister.extract_file_info "/usr/local.d/bin/Makefile"
     = Raise ValueError.
Proof.
  split; [reflexivity|].
  apply extract_file_info_no_dot. reflexivity.
Defined.

(** * Further properties of the code *)

(** ** Composites and operators *)

Lemma negb_forallb {A : Type} (f : A -> bool) (l : list A) :
  negb (forallb f l) = existsb (fun a => negb (f a)) l.
Proof.
  induction l as [|a l IH]; simpl; [reflexivity|].
  now rewrite negb_andb, IH.
Qed.

Lemma negb_existsb {A : Type} (f : A -> bool) (l : list A) :
  negb (existsb f l) = forallb (fun a => negb (f a)) l.
Proof.
  induction l as [|a l IH]; simpl; [reflexivity|].
  now rewrite negb_orb, IH.
Qed.

Lemma forallb_Permutation {A : Type} (f : A -> bool) (l l' : list A) :
  Permutation l l' -> forallb f l = forallb f l'.
Proof.
  induction 1 as [|x l l' _ IH|x y l|l l' l'' _ IH1 _ IH2]; simpl.
  - reflexivity.
  - now rewrite IH.
  - now rewrite !andb_assoc, (andb_comm (f y)).
  - now rewrite IH1.
Qed.

Lemma existsb_Permutation {A : Type} (f : A -> bool) (l l' : list A) :
  Permutation l l' -> existsb f l = existsb f l'.
Proof.
  induction 1 as [|x l l' _ IH|x y l|l l' l'' _ IH1 _ IH2]; simpl.
  - reflexivity.
  - now rewrite IH.
  - now rewrite !orb_assoc, (orb_comm (f y)).
  - now rewrite IH1.
Qed.

(** X1. Whatever its children return, a composite returns a boolean: the
    [is_satisfied] of [AndSpecification], [OrSpecification] and
    [NotSpecification] is never [None], also when every child returns
    [None]. *)
Theorem composites_return_bool (R : Item) :
  (forall args, exists b : bool,
       is_satisfied (AndSpecification args) R = VBool b)
  /\ (forall args, exists b : bool,
         is_satisfied (OrSpecification args) R = VBool b)
  /\ (forall c, exists b : bool,
         is_satisfied (NotSpecification c) R = VBool b).
Proof.
  split; [|split].
  - intros args. eexists. apply and_is_satisfied.
  - intros args. eexists. apply or_is_satisfied.
  - intros c. eexists. apply not_is_satisfied.
Qed.

(** X2. De Morgan's laws for any number of children, as equalities of the
    returned values: [Not(And(c1..cN))] returns what [Or(Not(c1)..Not(cN))]
    returns, and [Not(Or(c1..cN))] what [And(Not(c1)..Not(cN))] returns. *)
Theorem de_morgan_n_ary (R : Item) (args : list Specification) :
  is_satisfied (NotSpecification (AndSpecification args)) R
  = is_satisfied (OrSpecification (map NotSpecification args)) R
  /\ is_satisfied (NotSpecification (OrSpecification args)) R
     = is_satisfied (AndSpecification (map NotSpecification args)) R.
Proof.
  rewrite !not_is_satisfied, !and_is_satisfied, !or_is_satisfied.
  rewrite forallb_through_map, existsb_through_map. simpl.
  now rewrite negb_forallb, negb_existsb.
Qed.

(** X3. Nesting composites of one kind does not change the result: an
    [And] whose first child is [And(xs)] returns what the flat [And] of
    [xs] followed by the other children returns, and the same for [Or]; so
    [a & b & c], built by two calls of [__and__], returns what
    [AndSpecification(a, b, c)] returns, and [a | b | c] what
    [OrSpecification(a, b, c)] returns. *)
Theorem nested_composites_flatten (R : Item) :
  (forall xs ys,
      is_satisfied (AndSpecification (AndSpecification xs :: ys)) R
      = is_satisfied (AndSpecification (xs ++ ys)) R)
  /\ (forall xs ys,
         is_satisfied (OrSpecification (OrSpecification xs :: ys)) R
         = is_satisfied (OrSpecification (xs ++ ys)) R)
  /\ (forall a b c,
         is_satisfied (__and__ (__and__ a b) c) R
         = is_satisfied (AndSpecification [a; b; c]) R
         /\ is_satisfied (__or__ (__or__ a b) c) R
            = is_satisfied (OrSpecification [a; b; c]) R).
Proof.
  assert (A : forall xs ys,
             is_satisfied (AndSpecification (AndSpecification xs :: ys)) R
             = is_satisfied (AndSpecification (xs ++ ys)) R).
  { intros xs ys. rewrite (and_is_satisfied R (xs ++ ys)), forallb_app.
    rewrite and_is_satisfied. cbn [forallb]. now rewrite and_is_satisfied. }
  assert (O : forall xs ys,
             is_satisfied (OrSpecification (OrSpecification xs :: ys)) R
             = is_satisfied (OrSpecification (xs ++ ys)) R).
  { intros xs ys. rewrite (or_is_satisfied R (xs ++ ys)), existsb_app.
    rewrite or_is_satisfied. cbn [existsb]. now rewrite or_is_satisfied. }
  split; [exact A | split; [exact O|]].
  intros a b c. unfold __and__, __or__. split; [apply A | apply O].
Qed.

(** X4. The order of the children does not matter: an [And] (an [Or]) over
    a permutation of the same children returns the same value. In
    particular [a & b] returns what [b & a] returns. *)
Theorem composites_order_irrelevant (R : Item)
  (args args' : list Specification) :
  Permutation args args' ->
  is_satisfied (AndSpecification args) R
  = is_satisfied (AndSpecification args') R
  /\ is_satisfied (OrSpecification args) R
     = is_satisfied (OrSpecification args') R.
Proof.
  intros P. rewrite !and_is_satisfied, !or_is_satisfied.
  now rewrite (forallb_Permutation _ _ _ P), (existsb_Permutation _ _ _ P).
Qed.

Lemma composites_order_irrelevant_witness :
  Permutation [FileName ["notes"]; Extension ["jpg"]]
              [Extension ["jpg"]; FileName ["notes"]]
  /\ is_satisfied (__and__ (FileName ["notes"]) (Extension ["jpg"])) item_notes
     = is_satisfied (__and__ (Extension ["jpg"]) (FileName ["notes"]))
         item_notes
  /\ is_satisfied (__or__ (FileName ["notes"]) (Extension ["jpg"])) item_notes
     = is_satisfied (__or__ (Extension ["jpg"]) (FileName ["notes"]))
         item_notes.
Proof.
  split; [apply perm_swap|].
  apply (composites_order_irrelevant item_notes
           [FileName ["notes"]; Extension ["jpg"]]
           [Extension ["jpg"]; FileName ["notes"]]).
  apply perm_swap.
Defined.

(** X5. A specification and its negation: [s & ~s] is satisfied by no item
    and [s | ~s] by every item, also for a primitive [s] that returns
    [None]. *)
Theorem contradiction_and_excluded_middle (R : Item) (s : Specification) :
  is_satisfied (__and__ s (__invert__ s)) R = VBool false
  /\ is_satisfied (__or__ s (__invert__ s)) R = VBool true.
Proof.
  unfold __and__, __or__, __invert__.
  rewrite and_is_satisfied, or_is_satisfied. cbn [forallb existsb].
  rewrite not_is_satisfied. cbn [truthy].
  destruct (truthy (is_satisfied s R)); split; reflexivity.
Qed.

(** ** Truth values of the primitives *)

Lemma for_terms_truthy (terms : list string) (hay : string) :
  truthy (for_terms terms hay) = existsb (fun t => str_in t hay) terms.
Proof.
  induction terms as [|t terms IH]; simpl; [reflexivity|].
  destruct (str_in t hay); [reflexivity | exact IH].
Qed.

Lemma existsb_flat_map {A B : Type} (f : A -> list B) (p : B -> bool)
  (l : list A) :
  existsb p (flat_map f l) = existsb (fun a => existsb p (f a)) l.
Proof.
  induction l as [|a l IH]; simpl; [reflexivity|].
  now rewrite existsb_app, IH.
Qed.

Lemma existsb_pointwise {A : Type} (f g : A -> bool) (l : list A) :
  (forall a, f a = g a) -> existsb f l = existsb g l.
Proof.
  intros E. induction l as [|a l IH]; simpl; [reflexivity|].
  now rewrite E, IH.
Qed.

Lemma FolderNames_truthy (terms : list string) (R : Item) :
  truthy (is_satisfied (FolderNames terms) R)
  = existsb (fun t => existsb (fun f => str_in t (lower f)) (folder_names R))
      terms.
Proof.
  simpl. rewrite py_any_existsb. cbn [truthy]. unfold cross_in.
  rewrite existsb_flat_map.
  replace (existsb _ terms)
    with (existsb (fun t => existsb (fun f => str_in t (lower f))
                              (folder_names R)) terms).
  - destruct (existsb _ terms); reflexivity.
  - apply existsb_pointwise. intros t.
    now rewrite !existsb_through_map.
Qed.

Lemma existsb_or {A : Type} (f g : A -> bool) (l : list A) :
  existsb (fun a => f a || g a) l = existsb f l || existsb g l.
Proof.
  induction l as [|a l IH]; simpl; [reflexivity|]. rewrite IH.
  destruct (f a), (g a), (existsb f l), (existsb g l); reflexivity.
Qed.

(** The value of [a | b & ~c & d & e]. *)
Lemma main_expression_value (a b c d e : Specification) (R : Item) :
  is_satisfied (main_expression a b c d e) R
  = VBool (truthy (is_satisfied a R)
           || (truthy (is_satisfied b R)
               && negb (truthy (is_satisfied c R))
               && truthy (is_satisfied d R)
               && truthy (is_satisfied e R))).
Proof.
  unfold main_expression, __or__, __and__, __invert__. simpl.
  destruct (truthy (is_satisfied a R)), (truthy (is_satisfied b R)),
    (truthy (is_satisfied c R)), (truthy (is_satisfied d R)),
    (truthy (is_satisfied e R)); reflexivity.
Qed.

(** X6. What the entry point selects. The expression
    [FileName(n1) | FileName(n2) & ~FileName(n3) & FolderNames(f1, f2) &
    Extension(e1, e2)] is an [Or] of [FileName(n1)] with the conjunction of
    the four others: an item is selected iff its lowercased file name
    contains [my_special_name], or else it contains [second_special_name]
    and not [this_is_bad_data], some lowercased folder contains
    [my_folder_name] or [sometimes_this_name], and the lowercased extension
    contains [img] or [jpg]. The folder and extension conditions do not
    apply to the first alternative. *)
Theorem main_spec_selects (R : Item) :
  is_satisfied main_spec R = VBool true
  <-> occurs_in "my_special_name" (lower (file_name R))
      \/ (occurs_in "second_special_name" (lower (file_name R))
          /\ ~ occurs_in "this_is_bad_data" (lower (file_name R))
          /\ (exists f, In f (folder_names R)
                        /\ (occurs_in "my_folder_name" (lower f)
                            \/ occurs_in "sometimes_this_name" (lower f)))
          /\ (occurs_in "img" (lower (extension R))
              \/ occurs_in "jpg" (lower (extension R)))).
Proof.
  unfold main_spec. rewrite main_expression_value, VBool_inj.
  rewrite FolderNames_truthy.
  change (truthy (is_satisfied (FileName ["my_special_name"]) R))
    with (truthy (for_terms ["my_special_name"] (lower (file_name R)))).
  change (truthy (is_satisfied (FileName ["second_special_name"]) R))
    with (truthy (for_terms ["second_special_name"] (lower (file_name R)))).
  change (truthy (is_satisfied (FileName ["this_is_bad_data"]) R))
    with (truthy (for_terms ["this_is_bad_data"] (lower (file_name R)))).
  change (truthy (is_satisfied (Extension ["img"; "jpg"]) R))
    with (truthy (for_terms ["img"; "jpg"] (lower (extension R)))).
  rewrite !for_terms_truthy. cbn [existsb]. rewrite !orb_false_r.
  rewrite <- existsb_or.
  rewrite orb_true_iff, !andb_true_iff, negb_true_iff, orb_true_iff.
  rewrite existsb_exists, !str_in_spec, str_in_false.
  setoid_rewrite orb_true_iff. setoid_rewrite str_in_spec.
  tauto.
Qed.

(** ** Terms of the primitives *)

Lemma str_in_empty (y : string) : str_in EmptyString y = true.
Proof. destruct y; reflexivity. Qed.


Lemma has_upper_append (a b : string) :
  has_upper (a ++ b)%string = has_upper a || has_upper b.
Proof.
  induction a as [|c a IH]; simpl; [reflexivity|].
  now rewrite IH, orb_assoc.
Qed.

Lemma lower_char_not_upper (c : ascii) : is_upper (lower_char c) = false.
Proof.
  unfold lower_char, is_upper.
  destruct ((65 <=? nat_of_ascii c)%nat && (nat_of_ascii c <=? 90)%nat)%bool
    eqn:E.
  - apply andb_true_iff in E as [E1 E2].
    apply Nat.leb_le in E1, E2.
    rewrite nat_ascii_embedding by lia.
    apply andb_false_iff. right. apply Nat.leb_gt. lia.
  - exact E.
Qed.

Lemma lower_has_no_upper (s : string) : has_upper (lower s) = false.
Proof.
  induction s as [|c s IH]; simpl; [reflexivity|].
  now rewrite lower_char_not_upper, IH.
Qed.

Lemma upper_term_not_in_lower (t s : string) :
  has_upper t = true -> str_in t (lower s) = false.
Proof.
  intros U. apply str_in_false. intros [pre [post E]].
  apply (f_equal has_upper) in E.
  rewrite lower_has_no_upper, !has_upper_append, U in E.
  now rewrite orb_true_r in E.
Qed.

Lemma existsb_all_false {A : Type} (f : A -> bool) (l : list A) :
  (forall a, In a l -> f a = false) -> existsb f l = false.
Proof.
  intros H. induction l as [|a l IH]; simpl; [reflexivity|].
  rewrite (H a) by now left. apply IH. intros b Hb. apply H. now right.
Qed.

(** X7. A primitive built from several terms is the disjunction of the
    primitives built from each term alone: [FileName(t1..tN)] is satisfied
    by an item iff [Or(FileName(t1), .., FileName(tN))] is, and likewise for
    [FolderNames] and [Extension]. *)
Theorem terms_are_alternatives (terms : list string) (R : Item) :
  is_satisfied (OrSpecification (map (fun t => FileName [t]) terms)) R
  = VBool (truthy (is_satisfied (FileName terms) R))
  /\ is_satisfied (OrSpecification (map (fun t => FolderNames [t]) terms)) R
     = VBool (truthy (is_satisfied (FolderNames terms) R))
  /\ is_satisfied (OrSpecification (map (fun t => Extension [t]) terms)) R
     = VBool (truthy (is_satisfied (Extension terms) R)).
Proof.
  rewrite !or_is_satisfied, !existsb_through_map, FolderNames_truthy.
  change (truthy (is_satisfied (FileName terms) R))
    with (truthy (for_terms terms (lower (file_name R)))).
  change (truthy (is_satisfied (Extension terms) R))
    with (truthy (for_terms terms (lower (extension R)))).
  rewrite !for_terms_truthy.
  split; [|split]; f_equal; apply existsb_pointwise; intros t.
  - change (truthy (is_satisfied (FileName [t]) R))
      with (truthy (for_terms [t] (lower (file_name R)))).
    rewrite for_terms_truthy. simpl. apply orb_false_r.
  - rewrite FolderNames_truthy. simpl. apply orb_false_r.
  - change (truthy (is_satisfied (Extension [t]) R))
      with (truthy (for_terms [t] (lower (extension R)))).
    rewrite for_terms_truthy. simpl. apply orb_false_r.
Qed.

(** X8. The empty string as a term. ["" in s] is true for every string [s],
    so a [FileName] or an [Extension] that has the empty string among its
    terms is satisfied by every item; a [FolderNames] that has it is
    satisfied exactly by the items that have at least one folder, and not
    by a file whose [folder_names] is empty. *)
Theorem empty_string_term (terms : list string) (R : Item) :
  In EmptyString terms ->
  is_satisfied (FileName terms) R = VBool true
  /\ is_satisfied (Extension terms) R = VBool true
  /\ (is_satisfied (FolderNames terms) R = VBool true
      <-> folder_names R <> []).
Proof.
  intros Hin. split; [|split].
  - apply for_terms_true. exists EmptyString. split; [exact Hin|].
    apply str_in_spec, str_in_empty.
  - apply for_terms_true. exists EmptyString. split; [exact Hin|].
    apply str_in_spec, str_in_empty.
  - rewrite FolderNames_true. split.
    + intros [t [f [_ [Hf _]]]] E. rewrite E in Hf. exact Hf.
    + destruct (folder_names R) as [|f fs] eqn:E; [congruence|].
      intros _. exists EmptyString, f. split; [exact Hin|].
      split; [now left|]. apply str_in_spec, str_in_empty.
Qed.

Lemma empty_string_term_witness :
  In EmptyString ["photo"; ""]
  /\ is_satisfied (FileName ["photo"; ""]) item_notes = VBool true
  /\ is_satisfied (Extension ["photo"; ""]) item_notes = VBool true
  /\ (is_satisfied (FolderNames ["photo"; ""]) item_notes = VBool true
      <-> folder_names item_notes <> []).
Proof.
  assert (H : In EmptyString ["photo"; ""]) by (right; left; reflexivity).
  split; [exact H|].
  exact (empty_string_term ["photo"; ""] item_notes H).
Defined.

(** X9. A term with an uppercase letter matches nothing. The item's fields
    are lowercased before the comparison and the terms are not, so a
    primitive all of whose terms contain a letter in [A]-[Z] is satisfied
    by no item (it returns [None]); this includes a primitive without
    terms. *)
Theorem uppercase_terms_never_match (terms : list string) (R : Item) :
  Forall (fun t => has_upper t = true) terms ->
  is_satisfied (FileName terms) R = VNone
  /\ is_satisfied (FolderNames terms) R = VNone
  /\ is_satisfied (Extension terms) R = VNone.
Proof.
  intros U. rewrite Forall_forall in U.
  destruct (unmatched_primitive_None terms R) as [N1 [N2 N3]].
  split; [|split].
  - apply N1. intros t Ht. apply str_in_false.
    now apply upper_term_not_in_lower, U.
  - apply N3. intros t f Ht _. apply str_in_false.
    now apply upper_term_not_in_lower, U.
  - apply N2. intros t Ht. apply str_in_false.
    now apply upper_term_not_in_lower, U.
Qed.

Lemma uppercase_terms_never_match_witness :
  Forall (fun t => has_upper t = true) ["Photo"; "JPG"; "Foobar"]
  /\ is_satisfied (FileName ["Photo"; "JPG"; "Foobar"]) item_photo = VNone
  /\ is_satisfied (FolderNames ["Photo"; "JPG"; "Foobar"]) item_photo = VNone
  /\ is_satisfied (Extension ["Photo"; "JPG"; "Foobar"]) item_photo = VNone.
Proof.
  assert (H : Forall (fun t => has_upper t = true) ["Photo"; "JPG"; "Foobar"])
    by (repeat constructor).
  split; [exact H|].
  exact (uppercase_terms_never_match ["Photo"; "JPG"; "Foobar"] item_photo H).
Defined.

(** ** Paths *)

Lemma string_append_assoc (a b c : string) :
  ((a ++ b) ++ c)%string = (a ++ (b ++ c))%string.
Proof. induction a as [|x a IH]; simpl; [|rewrite IH]; reflexivity. Qed.

Lemma string_append_empty_r (a : string) : (a ++ EmptyString)%string = a.
Proof. induction a as [|x a IH]; simpl; [|rewrite IH]; reflexivity. Qed.

Lemma char_in_append (c : ascii) (a b : string) :
  str_in (String c EmptyString) (a ++ b)%string
  = str_in (String c EmptyString) a || str_in (String c EmptyString) b.
Proof.
  induction a as [|x a IH].
  - reflexivity.
  - cbn [append]. rewrite !char_in_cons, IH. apply orb_assoc.
Qed.

Lemma substring_0_all (s : string) : substring 0 (String.length s) s = s.
Proof. induction s as [|x s IH]; simpl; [|rewrite IH]; reflexivity. Qed.

Lemma substring_0_app (d n : string) :
  substring 0 (String.length d) (d ++ n)%string = d.
Proof.
  induction d as [|x d IH]; simpl.
  - destruct n; reflexivity.
  - now rewrite IH.
Qed.

Lemma substring_skip_app (d n : string) (m : nat) :
  substring (String.length d) m (d ++ n)%string = substring 0 m n.
Proof. induction d as [|x d IH]; simpl; [reflexivity | exact IH]. Qed.

Section LastOccurrence.

Variable c : ascii.

Let has (s : string) : bool := str_in (String c EmptyString) s.

Lemma rfind_absent (p : string) : has p = false -> rfind p c = (-1)%Z.
Proof.
  unfold has. induction p as [|a p IH]; [reflexivity|].
  rewrite char_in_cons. intros H. apply orb_false_iff in H as [Ha Hp].
  cbn [rfind]. rewrite (IH Hp). cbn. rewrite Ascii.eqb_sym, Ha. reflexivity.
Qed.

Lemma rfind_last (d n : string) :
  has n = false -> rfind (d ++ String c n)%string c = Z.of_nat (String.length d).
Proof.
  intros Hn. induction d as [|a d IH].
  - cbn [append rfind]. rewrite (rfind_absent n Hn). cbn.
    now rewrite Ascii.eqb_refl.
  - cbn [append rfind String.length]. rewrite IH.
    destruct (0 <=? Z.of_nat (String.length d))%Z eqn:E; [lia|].
    apply Z.leb_gt in E. lia.
Qed.

Lemma last_occurrence (p : string) :
  has p = true ->
  exists d n : string, p = (d ++ String c n)%string /\ has n = false.
Proof.
  unfold has. induction p as [|a p IH]; [discriminate|].
  rewrite char_in_cons. intros H.
  destruct (str_in (String c EmptyString) p) eqn:Hp.
  - destruct (IH eq_refl) as [d [n [-> Hn]]].
    exists (String a d), n. split; [reflexivity | exact Hn].
  - rewrite orb_false_r in H. apply Ascii.eqb_eq in H as <-.
    exists EmptyString, p. split; [reflexivity | exact Hp].
Qed.

End LastOccurrence.

Lemma basename_without_sep (p : string) :
  str_in (String sep EmptyString) p = false -> basename p = p.
Proof.
  intros H. unfold basename, slice_from. rewrite (rfind_absent sep p H).
  cbn [Z.add Z.to_nat]. simpl. rewrite Nat.sub_0_r. apply substring_0_all.
Qed.

Lemma basename_last (d n : string) :
  str_in (String sep EmptyString) n = false ->
  basename (d ++ String sep n)%string = n.
Proof.
  intros H. unfold basename, slice_from. rewrite (rfind_last sep d n H).
  replace (Z.to_nat (Z.of_nat (String.length d) + 1))
    with (String.length (d ++ String sep EmptyString)%string)
    by (rewrite string_length_append; simpl; lia).
  replace (d ++ String sep n)%string
    with ((d ++ String sep EmptyString) ++ n)%string
    by (now rewrite string_append_assoc).
  rewrite substring_skip_app, string_length_append.
  rewrite Nat.add_comm, Nat.add_sub. apply substring_0_all.
Qed.

Lemma head_last (d n : string) :
  str_in (String sep EmptyString) n = false ->
  slice_to (d ++ String sep n)%string
           (rfind (d ++ String sep n)%string sep + 1)
  = (d ++ String sep EmptyString)%string.
Proof.
  intros H. unfold slice_to. rewrite (rfind_last sep d n H).
  replace (Z.to_nat (Z.of_nat (String.length d) + 1))
    with (String.length (d ++ String sep EmptyString)%string)
    by (rewrite string_length_append; simpl; lia).
  replace (d ++ String sep n)%string
    with ((d ++ String sep EmptyString) ++ n)%string
    by (now rewrite string_append_assoc).
  apply substring_0_app.
Qed.

Lemma basename_has_no_sep (p : string) :
  str_in (String sep EmptyString) (basename p) = false.
Proof.
  destruct (str_in (String sep EmptyString) p) eqn:E.
  - destruct (last_occurrence sep p E) as [d [n [-> Hn]]].
    now rewrite (basename_last d n Hn).
  - now rewrite (basename_without_sep p E).
Qed.

(** A path ends with its [basename]. *)
Lemma basename_is_suffix (p : string) :
  exists head : string, p = (head ++ basename p)%string.
Proof.
  destruct (str_in (String sep EmptyString) p) eqn:E.
  - destruct (last_occurrence sep p E) as [d [n [-> Hn]]].
    rewrite (basename_last d n Hn). exists (d ++ String sep EmptyString)%string.
    now rewrite string_append_assoc.
  - rewrite (basename_without_sep p E). exists EmptyString. reflexivity.
Qed.

(** ** Segments of a directory *)

Section Segments.

Variable c : ascii.

Lemma split_not_nil (s : string) (m : option nat) : split s c m <> [].
Proof.
  revert m. induction s as [|a s IH]; intros m; simpl; [discriminate|].
  destruct (Ascii.eqb a c && _); [discriminate|].
  destruct (split s c m) eqn:E; discriminate.
Qed.

Lemma split_elements_without_sep (s w : string) :
  In w (split s c None) -> str_in (String c EmptyString) w = false.
Proof.
  revert w. induction s as [|a s IH]; intros w; cbn [split option_map].
  - intros [<-|[]]. reflexivity.
  - destruct (Ascii.eqb_spec a c) as [->|Hne]; cbn [andb].
    + intros [<-|H]; [reflexivity | now apply IH].
    + destruct (split s c None) as [|v vs] eqn:E.
      * intros [<-|[]]. rewrite char_in_cons. cbn.
        rewrite orb_false_r. apply Ascii.eqb_neq. congruence.
      * intros [<-|H].
        -- rewrite char_in_cons, (IH v) by now left.
           rewrite orb_false_r. apply Ascii.eqb_neq. congruence.
        -- apply IH. now right.
Qed.

Lemma split_append_sep (s : string) :
  split (s ++ String c EmptyString)%string c None
  = split s c None ++ [EmptyString].
Proof.
  induction s as [|a s IH]; cbn [append split option_map].
  - rewrite Ascii.eqb_refl. reflexivity.
  - destruct (Ascii.eqb a c); cbn [andb].
    + now rewrite IH.
    + rewrite IH. destruct (split s c None) eqn:E; [|reflexivity].
      exfalso. exact (split_not_nil s None E).
Qed.

Lemma repeat_char_snoc (k : nat) :
  repeat_char c (S k) = (repeat_char c k ++ String c EmptyString)%string.
Proof. induction k as [|k IH]; [reflexivity|]. simpl in *. now rewrite <- IH. Qed.

Lemma rstrip_decomposition (s : string) :
  exists k : nat, s = (rstrip s c ++ repeat_char c k)%string.
Proof.
  induction s as [|a s [k IH]]; [exists 0; reflexivity|].
  cbn [rstrip]. destruct (rstrip s c) as [|b r] eqn:E.
  - simpl in IH. destruct (Ascii.eqb_spec a c) as [->|Hne].
    + exists (S k). simpl. now rewrite <- IH.
    + exists k. simpl. now rewrite <- IH.
  - exists k. cbn [append] in IH |- *. now rewrite <- IH.
Qed.

End Segments.

Lemma segments_append_sep (s : string) :
  nonempty_segments (s ++ String sep EmptyString)%string = nonempty_segments s.
Proof.
  unfold nonempty_segments. rewrite split_append_sep, filter_app. simpl.
  apply app_nil_r.
Qed.

Lemma segments_append_seps (s : string) (k : nat) :
  nonempty_segments (s ++ repeat_char sep k)%string = nonempty_segments s.
Proof.
  induction k as [|k IH].
  - simpl. now rewrite string_append_empty_r.
  - rewrite repeat_char_snoc, <- string_append_assoc, segments_append_sep.
    exact IH.
Qed.

Lemma segments_rstrip (s : string) :
  nonempty_segments (rstrip s sep) = nonempty_segments s.
Proof.
  destruct (rstrip_decomposition sep s) as [k E].
  rewrite E at 2. now rewrite segments_append_seps.
Qed.

(** The folders of a path are the segments of the text before its last
    separator. *)
Lemma segments_dirname (p : string) :
  nonempty_segments (dirname p)
  = nonempty_segments (slice_to p (rfind p sep + 1)).
Proof.
  unfold dirname. cbv zeta.
  destruct (negb _ && negb _); [apply segments_rstrip | reflexivity].
Qed.

Lemma segments_dirname_last (d n : string) :
  str_in (String sep EmptyString) n = false ->
  nonempty_segments (dirname (d ++ String sep n)%string) = nonempty_segments d.
Proof.
  intros H. now rewrite segments_dirname, (head_last d n H), segments_append_sep.
Qed.

Lemma segments_dirname_without_sep (p : string) :
  str_in (String sep EmptyString) p = false ->
  nonempty_segments (dirname p) = [].
Proof.
  intros H. rewrite segments_dirname, (rfind_absent sep p H).
  unfold slice_to. simpl. destruct p; reflexivity.
Qed.

Lemma segments_well_formed (d f : string) :
  In f (nonempty_segments d) ->
  f <> EmptyString /\ str_in (String sep EmptyString) f = false.
Proof.
  unfold nonempty_segments. intros H. apply filter_In in H as [Hin Hne].
  split.
  - intros ->. discriminate Hne.
  - exact (split_elements_without_sep sep d f Hin).
Qed.

(** What a successful extraction returns. *)
Lemma extract_file_info_Ok (p : string) (R : Item) :
  RecursiveFileLister.extract_file_info p = Ok R ->
  str_in "." (basename p) = true
  /\ file_path R = p
  /\ file_name R = basename p
  /\ file_name R = (file_base_name R ++ String "."%char (extension R))%string
  /\ str_in "." (file_base_name R) = false
  /\ folder_names R = nonempty_segments (dirname p).
Proof.
  unfold RecursiveFileLister.extract_file_info.
  pose proof (split_maxsplit_1 "."%char (basename p)) as S1.
  destruct (str_in "." (basename p)).
  - destruct S1 as [b [e [Hs [Heq Hb]]]]. rewrite Hs.
    intros H. injection H as <-. cbn. repeat split; assumption.
  - rewrite S1. discriminate.
Qed.

(** ** Extraction, further *)


Lemma endswith_decomposition (s : string) (c : ascii) :
  endswith s c = true -> exists d : string, s = (d ++ String c EmptyString)%string.
Proof.
  induction s as [|a s IH]; [discriminate|].
  cbn [endswith]. destruct s as [|b s].
  - intros H. apply Ascii.eqb_eq in H as ->. exists EmptyString. reflexivity.
  - intros H. destruct (IH H) as [d E]. exists (String a d).
    cbn [append]. now rewrite <- E.
Qed.

Lemma startswith_char_in (c : ascii) (s : string) :
  str_in (String c EmptyString) s = false ->
  startswith s (String c EmptyString) = false.
Proof.
  destruct s as [|a s]; [reflexivity|].
  rewrite char_in_cons. intros H. apply orb_false_iff in H as [H _].
  simpl. now rewrite H.
Qed.

(** The path that [os.path.join(root, file)] builds for a name [file]
    without separator ends with [file] after its last separator, and the
    text before that has the segments of [root]. *)
Lemma join_basename_segments (root file : string) :
  str_in (String sep EmptyString) file = false ->
  basename (join root file) = file
  /\ nonempty_segments (dirname (join root file)) = nonempty_segments root.
Proof.
  intros Hf. unfold join. rewrite (startswith_char_in sep file Hf).
  destruct (String.eqb_spec root EmptyString) as [->|Hne]; cbn [orb].
  - cbn [append]. split; [now apply basename_without_sep|].
    now rewrite segments_dirname_without_sep.
  - destruct (endswith root sep) eqn:E.
    + destruct (endswith_decomposition root sep E) as [d ->].
      rewrite string_append_assoc. cbn [append]. split.
      * now apply basename_last.
      * now rewrite segments_dirname_last, segments_append_sep.
    + split; [now apply basename_last | now apply segments_dirname_last].
Qed.



(** X11. What a successful extraction never returns. The item keeps the
    path it was given, the path ends with [file_name], [file_name] has no
    path separator, and every element of [folder_names] is a non-empty
    string without separator. *)
Theorem extracted_item_well_formed (p : string) (R : Item) :
  RecursiveFileLister.extract_file_info p = Ok R ->
  file_path R = p
  /\ (exists head : string, p = (head ++ file_name R)%string)
  /\ str_in "/" (file_name R) = false
  /\ Forall (fun f => f <> EmptyString /\ str_in "/" f = false)
       (folder_names R).
Proof.
  intros HR.
  destruct (extract_file_info_Ok p R HR) as [_ [Hp [Hn [_ [_ Hf]]]]].
  split; [exact Hp|]. rewrite Hn, Hf. split; [apply basename_is_suffix|].
  split; [apply basename_has_no_sep|].
  apply Forall_forall. intros f. apply segments_well_formed.
Qed.

Lemma extracted_item_well_formed_witness :
  RecursiveFileLister.extract_file_info "//srv///share/a.b/c.d.e"
  = Ok {| file_path := "//srv///share/a.b/c.d.e";
          file_name := "c.d.e";
          extension := "d.e";
          file_base_name := "c";
          folder_names := ["srv"; "share"; "a.b"] |}
  /\ (exists head : string,
         "//srv///share/a.b/c.d.e" = (head ++ "c.d.e")%string)
  /\ Forall (fun f => f <> EmptyString /\ str_in "/" f = false)
       ["srv"; "share"; "a.b"].
Proof.
  pose proof (extracted_item_well_formed "//srv///share/a.b/c.d.e" _ eq_refl)
    as [_ [H1 [_ H2]]].
  split; [reflexivity|]. split; [exact H1 | exact H2].
Defined.

(** X12. Where the first dot sits. A file whose name starts with a dot
    (a hidden file) gets the empty [file_base_name] and the rest of the name
    as [extension]; a file whose only dot ends the name gets the empty
    [extension]. Extraction succeeds in both cases. *)
Theorem leading_and_trailing_dot (p : string) :
  (forall e : string,
      basename p = String "."%char e ->
      exists R : Item,
        RecursiveFileLister.extract_file_info p = Ok R
        /\ file_base_name R = EmptyString /\ extension R = e)
  /\ (forall b : string,
         basename p = (b ++ ".")%string ->
         str_in "." b = false ->
         exists R : Item,
           RecursiveFileLister.extract_file_info p = Ok R
           /\ file_base_name R = b /\ extension R = EmptyString).
Proof.
  split.
  - intros e He. unfold RecursiveFileLister.extract_file_info. rewrite He.
    cbn [split option_map pred]. rewrite Ascii.eqb_refl. cbn [andb].
    rewrite split_maxsplit_0. eexists. split; [reflexivity|].
    split; reflexivity.
  - intros b Hb Hdot. unfold RecursiveFileLister.extract_file_info.
    pose proof (split_maxsplit_1 "."%char (basename p)) as S1.
    rewrite Hb in S1 |- *.
    rewrite char_in_append in S1. rewrite Hdot in S1. cbn [orb] in S1.
    change (str_in "." ".") with true in S1.
    destruct S1 as [b' [e' [Hs [Heq Hb']]]]. rewrite Hs.
    eexists. split; [reflexivity|]. cbn [file_base_name extension].
    clear Hs Hb. revert b' Heq Hb' Hdot.
    induction b as [|x b IH]; intros b' Heq Hb' Hdot.
    + destruct b' as [|y b'].
      * cbn in Heq. injection Heq as <-. split; reflexivity.
      * cbn in Heq. injection Heq as <- Heq.
        rewrite char_in_cons in Hb'. cbn in Hb'. discriminate Hb'.
    + rewrite char_in_cons in Hdot. apply orb_false_iff in Hdot as [Hx Hdot].
      destruct b' as [|y b'].
      * cbn in Heq. injection Heq as -> _. cbn in Hx. discriminate Hx.
      * cbn in Heq. injection Heq as <- Heq.
        rewrite char_in_cons in Hb'. apply orb_false_iff in Hb' as [_ Hb'].
        destruct (IH b' Heq Hb' Hdot) as [-> ->]. split; reflexivity.
Qed.

Lemma leading_and_trailing_dot_witness :
  (basename "/home/user/.bashrc" = ".bashrc"
   /\ exists R : Item,
       RecursiveFileLister.extract_file_info "/home/user/.bashrc" = Ok R
       /\ file_base_name R = EmptyString /\ extension R = "bashrc")
  /\ (basename "/tmp/draft." = ("draft" ++ ".")%string
      /\ str_in "." "draft" = false
      /\ exists R : Item,
          RecursiveFileLister.extract_file_info "/tmp/draft." = Ok R
          /\ file_base_name R = "draft" /\ extension R = EmptyString).
Proof.
  split.
  - split; [reflexivity|].
    apply (proj1 (leading_and_trailing_dot "/home/user/.bashrc")).
    reflexivity.
  - split; [reflexivity|]. split; [reflexivity|].
    apply (proj2 (leading_and_trailing_dot "/tmp/draft.")); reflexivity.
Defined.

(** X13. Extraction after [os.path.join], as [__call__] composes them. For
    a directory [root] and a file name [file] without separator:
    when [file] contains a dot, [extract_file_info(os.path.join(root, file))]
    returns an item whose [file_name] is [file] and whose [folder_names] are
    the non-empty segments of [root]; when [file] contains no dot, it raises
    [ValueError]. *)
Theorem extract_after_join (root file : string) :
  str_in "/" file = false ->
  (str_in "." file = true ->
   exists R : Item,
     RecursiveFileLister.extract_file_info (join root file) = Ok R
     /\ file_path R = join root file
     /\ file_name R = file
     /\ folder_names R = nonempty_segments root)
  /\ (str_in "." file = false ->
      RecursiveFileLister.extract_file_info (join root file)
      = Raise ValueError).
Proof.
  intros Hsep. destruct (join_basename_segments root file Hsep) as [Hb Hs].
  split; intros Hdot.
  - unfold RecursiveFileLister.extract_file_info.
    pose proof (split_maxsplit_1 "."%char (basename (join root file))) as S1.
    rewrite Hb in S1 |- *. rewrite Hdot in S1.
    destruct S1 as [b [e [Hsp _]]]. rewrite Hsp.
    eexists. split; [reflexivity|]. cbn. repeat split. exact Hs.
  - unfold RecursiveFileLister.extract_file_info.
    pose proof (split_maxsplit_1 "."%char (basename (join root file))) as S1.
    rewrite Hb in S1 |- *. rewrite Hdot in S1. now rewrite S1.
Qed.

Lemma extract_after_join_witness :
  (str_in "/" "report.tar.gz" = false
   /\ str_in "." "report.tar.gz" = true
   /\ exists R : Item,
       RecursiveFileLister.extract_file_info
         (join "/srv//data/" "report.tar.gz") = Ok R
       /\ file_path R = join "/srv//data/" "report.tar.gz"
       /\ file_name R = "report.tar.gz"
       /\ folder_names R = nonempty_segments "/srv//data/")
  /\ (str_in "/" "Makefile" = false
      /\ str_in "." "Makefile" = false
      /\ RecursiveFileLister.extract_file_info (join "/srv/v1.2" "Makefile")
         = Raise ValueError).
Proof.
  split.
  - split; [reflexivity|]. split; [reflexivity|].
    apply (proj1 (extract_after_join "/srv//data/" "report.tar.gz" eq_refl)).
    reflexivity.
  - split; [reflexivity|]. split; [reflexivity|].
    apply (proj2 (extract_after_join "/srv/v1.2" "Makefile" eq_refl)).
    reflexivity.
Defined.

(** ** Sorting paths *)

Lemma ascii_compare_trans_le (a b c : ascii) :
  Ascii.compare a b <> Gt -> Ascii.compare b c <> Gt ->
  Ascii.compare a c <> Gt
  /\ (Ascii.compare a c = Eq ->
      Ascii.compare a b = Eq /\ Ascii.compare b c = Eq).
Proof.
  unfold Ascii.compare.
  destruct (N.compare_spec (N_of_ascii a) (N_of_ascii b)) as [Eab|Lab|Gab],
    (N.compare_spec (N_of_ascii b) (N_of_ascii c)) as [Ebc|Lbc|Gbc],
    (N.compare_spec (N_of_ascii a) (N_of_ascii c)) as [Eac|Lac|Gac];
    intros Hab Hbc; split; try congruence; try lia; intros _; split;
    try reflexivity; try congruence; lia.
Qed.

Lemma string_compare_trans_le (s1 s2 s3 : string) :
  String.compare s1 s2 <> Gt -> String.compare s2 s3 <> Gt ->
  String.compare s1 s3 <> Gt.
Proof.
  revert s2 s3. induction s1 as [|a s1 IH]; intros [|b s2] [|c s3];
    cbn [String.compare]; try congruence.
  intros H1 H2.
  assert (Hab : Ascii.compare a b <> Gt)
    by (destruct (Ascii.compare a b); congruence).
  assert (Hbc : Ascii.compare b c <> Gt)
    by (destruct (Ascii.compare b c); congruence).
  destruct (ascii_compare_trans_le a b c Hab Hbc) as [Hac Heq].
  destruct (Ascii.compare a c) eqn:E; try congruence.
  destruct (Heq eq_refl) as [E1 E2]. rewrite E1 in H1. rewrite E2 in H2.
  now apply (IH s2 s3).
Qed.

Lemma str_le_iff (a b : string) : str_le a b <-> String.compare a b <> Gt.
Proof.
  unfold str_le, String.leb. destruct (String.compare a b); split;
    congruence.
Qed.

Lemma str_le_trans (a b c : string) : str_le a b -> str_le b c -> str_le a c.
Proof. rewrite !str_le_iff. apply string_compare_trans_le. Qed.

Lemma str_le_total (a b : string) : str_le a b \/ str_le b a.
Proof. apply String.leb_total. Qed.

Lemma str_le_antisym (a b : string) : str_le a b -> str_le b a -> a = b.
Proof. apply String.leb_antisym. Qed.

Lemma insert_sorted_Permutation (x : string) (l : list string) :
  Permutation (insert_sorted x l) (x :: l).
Proof.
  induction l as [|y l IH]; simpl; [reflexivity|].
  destruct (String.leb x y); [reflexivity|].
  rewrite IH. apply perm_swap.
Qed.

Lemma sort_Permutation (l : list string) : Permutation (sort l) l.
Proof.
  induction l as [|x l IH]; simpl; [reflexivity|].
  rewrite insert_sorted_Permutation. now constructor.
Qed.

Lemma insert_sorted_StronglySorted (x : string) (l : list string) :
  StronglySorted str_le l -> StronglySorted str_le (insert_sorted x l).
Proof.
  induction 1 as [|y l Hs IH Hy]; simpl.
  - repeat constructor.
  - destruct (String.leb x y) eqn:E.
    + constructor; [now constructor|]. constructor; [exact E|].
      rewrite Forall_forall in Hy |- *. intros z Hz.
      apply (str_le_trans x y z E). now apply Hy.
    + constructor; [exact IH|].
      rewrite Forall_forall in Hy |- *. intros z Hz.
      apply (Permutation_in _ (insert_sorted_Permutation x l)) in Hz.
      destruct Hz as [<-|Hz]; [|now apply Hy].
      destruct (str_le_total x y) as [H|H]; [|exact H].
      unfold str_le in H. congruence.
Qed.

Lemma sort_StronglySorted (l : list string) : StronglySorted str_le (sort l).
Proof.
  induction l as [|x l IH]; simpl; [constructor|].
  now apply insert_sorted_StronglySorted.
Qed.

(** A list of strings has one sorted arrangement. *)
Lemma sorted_unique (l1 l2 : list string) :
  StronglySorted str_le l1 -> StronglySorted str_le l2 ->
  Permutation l1 l2 -> l1 = l2.
Proof.
  intros S1. revert l2. induction S1 as [|x l1 S1 IH Hx]; intros l2 S2 P.
  - apply Permutation_nil in P. now subst.
  - destruct S2 as [|y l2 S2 Hy].
    + apply Permutation_sym, Permutation_nil in P. discriminate P.
    + assert (E : x = y).
      { rewrite Forall_forall in Hx, Hy.
        assert (Hxy : In x (y :: l2))
          by (apply (Permutation_in _ P); now left).
        assert (Hyx : In y (x :: l1))
          by (apply (Permutation_in _ (Permutation_sym P)); now left).
        destruct Hxy as [->|Hxy]; [reflexivity|].
        destruct Hyx as [->|Hyx]; [reflexivity|].
        apply str_le_antisym; [now apply Hx | now apply Hy]. }
      subst y. f_equal. apply IH; [exact S2|].
      now apply Permutation_cons_inv in P.
Qed.

Lemma sort_Permutation_invariant (l l' : list string) :
  Permutation l l' -> sort l = sort l'.
Proof.
  intros P. apply sorted_unique; try apply sort_StronglySorted.
  rewrite !sort_Permutation. exact P.
Qed.

(** ** The lister *)

Section Lister.

Import RecursiveFileLister.

Lemma extract_file_info_cases (p : string) :
  (str_in "." (basename p) = true
   /\ exists R, extract_file_info p = Ok R)
  \/ (str_in "." (basename p) = false
      /\ extract_file_info p = Raise ValueError).
Proof.
  unfold extract_file_info.
  pose proof (split_maxsplit_1 "."%char (basename p)) as S1.
  destruct (str_in "." (basename p)).
  - left. split; [reflexivity|]. destruct S1 as [b [e [Hs _]]]. rewrite Hs.
    eexists. reflexivity.
  - right. split; [reflexivity|]. now rewrite S1.
Qed.

Lemma extract_each_Raise (ps : list string) :
  extract_each ps = Raise ValueError
  <-> exists p, In p ps /\ str_in "." (basename p) = false.
Proof.
  induction ps as [|p ps IH]; cbn [extract_each].
  - split; [discriminate | intros [p [[] _]]].
  - destruct (extract_file_info_cases p) as [[Hd [R HR]]|[Hd HR]]; rewrite HR.
    + destruct (extract_each ps) as [items|[]] eqn:E.
      * split; [discriminate|]. intros [q [[<-|Hq] Hq']]; [congruence|].
        destruct IH as [_ IH]. discriminate IH. now exists q.
      * split; [intros _ | reflexivity].
        destruct IH as [IH _]. destruct (IH eq_refl) as [q [Hq Hq']].
        exists q. split; [now right | exact Hq'].
    + split; [intros _ | reflexivity]. exists p. split; [now left | exact Hd].
Qed.

Lemma extract_each_Ok (ps : list string) (items : list Item) :
  extract_each ps = Ok items ->
  map file_path items = ps
  /\ Forall2 (fun p R => extract_file_info p = Ok R) ps items.
Proof.
  revert items. induction ps as [|p ps IH]; intros items; cbn [extract_each].
  - intros H. injection H as <-. split; [reflexivity | constructor].
  - destruct (extract_file_info p) as [R|e] eqn:HR; [|discriminate].
    destruct (extract_each ps) as [items'|e] eqn:E; [|discriminate].
    intros H. injection H as <-. destruct (IH items' eq_refl) as [Hm HF].
    destruct (extract_file_info_Ok p R HR) as [_ [Hp _]].
    split; [cbn; now rewrite Hp, Hm | now constructor].
Qed.

Lemma extract_each_total (ps : list string) :
  extract_each ps = Raise ValueError \/ exists items, extract_each ps = Ok items.
Proof.
  destruct (extract_each ps) as [items|[]]; [right; now exists items | now left].
Qed.

Lemma listed_paths_In (walk : list WalkEntry) (p : string) :
  In p (listed_paths walk)
  <-> exists root dirs files file,
      In (root, dirs, files) walk /\ In file files /\ p = join root file.
Proof.
  unfold listed_paths. rewrite in_flat_map. split.
  - intros [[[root dirs] files] [Hw Hp]]. apply in_map_iff in Hp as [file [<- Hf]].
    exists root, dirs, files, file. auto.
  - intros [root [dirs [files [file [Hw [Hf ->]]]]]].
    exists (root, dirs, files). split; [exact Hw|]. now apply in_map.
Qed.

End Lister.

(** X14. One file without a dot makes the whole listing fail. Given what
    [os.walk] yields (file names without separator), [__call__] raises
    [ValueError] iff some listed file has no dot in its name, wherever it is
    in the tree; no partial list is returned. Otherwise it returns a
    list. *)
Theorem call_raises_iff_file_without_dot (walk : list WalkEntry) :
  Forall plain_names walk ->
  (RecursiveFileLister.__call__ walk = Raise ValueError
   <-> exists root dirs files file,
       In (root, dirs, files) walk /\ In file files
       /\ str_in "." file = false)
  /\ (RecursiveFileLister.__call__ walk = Raise ValueError
      \/ exists items, RecursiveFileLister.__call__ walk = Ok items).
Proof.
  intros W. rewrite Forall_forall in W.
  split; [|apply extract_each_total].
  unfold RecursiveFileLister.__call__. cbv zeta. rewrite extract_each_Raise.
  split.
  - intros [p [Hp Hd]].
    apply (Permutation_in _ (sort_Permutation _)) in Hp.
    apply listed_paths_In in Hp as [root [dirs [files [file [Hw [Hf ->]]]]]].
    exists root, dirs, files, file. repeat split; auto.
    pose proof (W _ Hw) as Hplain. cbn in Hplain.
    rewrite Forall_forall in Hplain.
    destruct (join_basename_segments root file (Hplain file Hf)) as [Hb _].
    now rewrite Hb in Hd.
  - intros [root [dirs [files [file [Hw [Hf Hd]]]]]].
    exists (join root file). split.
    + apply (Permutation_in _ (Permutation_sym (sort_Permutation _))).
      apply listed_paths_In. now exists root, dirs, files, file.
    + pose proof (W _ Hw) as Hplain. cbn in Hplain.
      rewrite Forall_forall in Hplain.
      destruct (join_basename_segments root file (Hplain file Hf)) as [Hb _].
      now rewrite Hb.
Qed.

Lemma call_raises_iff_file_without_dot_witness :
  Forall plain_names
    [("/r", ["d"], ["b.txt"; "a.TXT"]); ("/r/d", [], ["Makefile"])]
  /\ RecursiveFileLister.__call__
       [("/r", ["d"], ["b.txt"; "a.TXT"]); ("/r/d", [], ["Makefile"])]
     = Raise ValueError.
Proof.
  assert (W : Forall plain_names
                [("/r", ["d"], ["b.txt"; "a.TXT"]);
                 ("/r/d", [], ["Makefile"])]).
  { repeat constructor. }
  split; [exact W|].
  apply (proj1 (call_raises_iff_file_without_dot _ W)).
  exists "/r/d", [], ["Makefile"], "Makefile".
  split; [right; left; reflexivity|]. split; [left; reflexivity | reflexivity].
Defined.

(** X15. What a successful listing looks like. When [__call__] returns, it
    returns one item per listed file, the items' [file_path]s are the listed
    paths in ascending order of [str], and each item is what
    [extract_file_info] returns for its path. *)
Theorem call_returns_sorted_listing
  (walk : list WalkEntry) (items : list Item) :
  RecursiveFileLister.__call__ walk = Ok items ->
  Permutation (map file_path items) (RecursiveFileLister.listed_paths walk)
  /\ StronglySorted str_le (map file_path items)
  /\ List.length items = List.length (RecursiveFileLister.listed_paths walk)
  /\ Forall (fun R => RecursiveFileLister.extract_file_info (file_path R) = Ok R)
       items.
Proof.
  unfold RecursiveFileLister.__call__. cbv zeta. intros H.
  destruct (extract_each_Ok _ _ H) as [Hm HF].
  split; [rewrite Hm; apply sort_Permutation|].
  split; [rewrite Hm; apply sort_StronglySorted|].
  split.
  - rewrite <- (length_map file_path items), Hm.
    apply Permutation_length, sort_Permutation.
  - rewrite <- Hm in HF. clear Hm H.
    induction items as [|R items IH]; [constructor|].
    cbn in HF. inversion HF; subst. constructor; auto.
Qed.

Lemma call_returns_sorted_listing_witness :
  RecursiveFileLister.__call__
    [("/r", ["d"], ["b.txt"; "a.TXT"]); ("/r/d", [], ["x.y.z"])]
  = Ok [ {| file_path := "/r/a.TXT"; file_name := "a.TXT";
            extension := "TXT"; file_base_name := "a";
            folder_names := ["r"] |};
         {| file_path := "/r/b.txt"; file_name := "b.txt";
            extension := "txt"; file_base_name := "b";
            folder_names := ["r"] |};
         {| file_path := "/r/d/x.y.z"; file_name := "x.y.z";
            extension := "y.z"; file_base_name := "x";
            folder_names := ["r"; "d"] |} ]
  /\ StronglySorted str_le ["/r/a.TXT"; "/r/b.txt"; "/r/d/x.y.z"].
Proof.
  split; [reflexivity|].
  exact (proj1 (proj2 (call_returns_sorted_listing
                         [("/r", ["d"], ["b.txt"; "a.TXT"]);
                          ("/r/d", [], ["x.y.z"])] _ eq_refl))).
Defined.

(** X16. The listing does not depend on the order in which [os.walk]
    reports directories and files: two walks that list the same paths, in
    any order, give the same result, the same items in the same order or
    the same error. *)
Theorem call_independent_of_walk_order (walk walk' : list WalkEntry) :
  Permutation (RecursiveFileLister.listed_paths walk)
              (RecursiveFileLister.listed_paths walk') ->
  RecursiveFileLister.__call__ walk = RecursiveFileLister.__call__ walk'.
Proof.
  intros P. unfold RecursiveFileLister.__call__. cbv zeta.
  now rewrite (sort_Permutation_invariant _ _ P).
Qed.

Lemma call_independent_of_walk_order_witness :
  Permutation
    (RecursiveFileLister.listed_paths
       [("/r", ["d"], ["b.txt"; "a.TXT"]); ("/r/d", [], ["x.y.z"])])
    (RecursiveFileLister.listed_paths
       [("/r/d", [], ["x.y.z"]); ("/r", ["d"], ["a.TXT"; "b.txt"])])
  /\ RecursiveFileLister.__call__
       [("/r", ["d"], ["b.txt"; "a.TXT"]); ("/r/d", [], ["x.y.z"])]
     = RecursiveFileLister.__call__
         [("/r/d", [], ["x.y.z"]); ("/r", ["d"], ["a.TXT"; "b.txt"])].
Proof.
  assert (P : Permutation
                (RecursiveFileLister.listed_paths
                   [("/r", ["d"], ["b.txt"; "a.TXT"]);
                    ("/r/d", [], ["x.y.z"])])
                (RecursiveFileLister.listed_paths
                   [("/r/d", [], ["x.y.z"]);
                    ("/r", ["d"], ["a.TXT"; "b.txt"])])).
  { cbn. apply Permutation_sym.
    apply (Permutation_cons_app ["/r/b.txt"; "/r/a.TXT"] []).
    apply perm_swap. }
  split; [exact P|].
  exact (call_independent_of_walk_order _ _ P).
Defined.

(** ** The filter, further *)

Lemma filter_filter_and {A : Type} (f g : A -> bool) (l : list A) :
  List.filter g (List.filter f l) = List.filter (fun a => f a && g a) l.
Proof.
  induction l as [|a l IH]; simpl; [reflexivity|].
  destruct (f a) eqn:E; simpl; [|exact IH].
  destruct (g a); [now rewrite IH | exact IH].
Qed.

Lemma filter_pointwise {A : Type} (f g : A -> bool) (l : list A) :
  (forall a, f a = g a) -> List.filter f l = List.filter g l.
Proof.
  intros E. induction l as [|a l IH]; simpl; [reflexivity|].
  now rewrite E, IH.
Qed.

Lemma filter_complement_Permutation {A : Type} (f : A -> bool) (l : list A) :
  Permutation (List.filter f l ++ List.filter (fun a => negb (f a)) l) l.
Proof.
  induction l as [|a l IH]; simpl; [reflexivity|].
  destruct (f a); simpl.
  - now constructor.
  - apply Permutation_sym, Permutation_cons_app, Permutation_sym, IH.
Qed.

Lemma satisfying_length (spec : Specification) (items : list Item) :
  List.length (satisfying spec items) <= List.length items.
Proof. apply filter_length_le. Qed.

Lemma satisfying_and (s1 s2 : Specification) (items : list Item) :
  satisfying s2 (satisfying s1 items) = satisfying (__and__ s1 s2) items.
Proof.
  unfold satisfying. rewrite filter_filter_and. apply filter_pointwise.
  intros R. unfold __and__. rewrite and_is_satisfied. simpl.
  now rewrite andb_true_r.
Qed.

Lemma satisfying_idempotent (s : Specification) (items : list Item) :
  satisfying s (satisfying s items) = satisfying s items.
Proof.
  rewrite satisfying_and. unfold satisfying, __and__.
  apply filter_pointwise. intros R. rewrite and_is_satisfied. simpl.
  destruct (truthy (is_satisfied s R)); reflexivity.
Qed.

Lemma satisfying_invert (s : Specification) (items : list Item) :
  satisfying (__invert__ s) items
  = List.filter (fun R => negb (truthy (is_satisfied s R))) items.
Proof. reflexivity. Qed.

Section Laziness.

Import SubjectFilter.

Variable spec : Specification.

Lemma pull_within (items : list Item) :
  forall (count k : nat),
    k <= List.length (satisfying spec items) ->
    exists rest : list Item,
      pull k (Suspended spec items count)
      = (firstn k (satisfying spec items), Suspended spec rest (count + k), []).
Proof.
  induction items as [|item items IH]; intros count k Hk.
  - cbn in Hk. assert (k = 0) by lia. subst k. exists []. cbn.
    now rewrite Nat.add_0_r.
  - destruct k as [|k].
    + exists (item :: items). cbn. now rewrite Nat.add_0_r.
    + unfold satisfying in Hk |- *. cbn [List.filter pull next resume] in Hk |- *.
      destruct (truthy (is_satisfied spec item)) eqn:E.
      * cbn [List.length] in Hk.
        destruct (IH (count + 1) k ltac:(unfold satisfying; lia)) as [rest Hr].
        rewrite Hr. exists rest. unfold satisfying. cbn [firstn app].
        do 3 f_equal. lia.
      * destruct (IH count (S k) Hk) as [rest Hr].
        cbn [pull next] in Hr. exists rest. exact Hr.
Qed.

Lemma pull_beyond (items : list Item) :
  forall (count k : nat),
    List.length (satisfying spec items) < k ->
    pull k (Suspended spec items count)
    = (satisfying spec items, Finished,
       [found_line (count + List.length (satisfying spec items))]).
Proof.
  induction items as [|item items IH]; intros count k Hk.
  - destruct k as [|k]; [inversion Hk|]. cbn. now rewrite Nat.add_0_r.
  - destruct k as [|k]; [inversion Hk|].
    unfold satisfying in Hk |- *. cbn [List.filter pull next resume] in Hk |- *.
    destruct (truthy (is_satisfied spec item)) eqn:E.
    + cbn [List.length] in Hk.
      rewrite (IH (count + 1) k ltac:(unfold satisfying; lia)).
      unfold satisfying. cbn [app List.length]. cbv beta iota.
      rewrite <- Nat.add_assoc. reflexivity.
    + specialize (IH count (S k) Hk). cbn [pull next] in IH. exact IH.
Qed.

Lemma main_loop_suspended (items : list Item) :
  forall (count fuel : nat),
    List.length items < fuel ->
    main_loop fuel (Suspended spec items count)
    = Some (map process_line (satisfying spec items)
            ++ [found_line (count + List.length (satisfying spec items))]).
Proof.
  induction items as [|item items IH]; intros count fuel Hfuel.
  - destruct fuel as [|fuel]; [inversion Hfuel|]. cbn.
    now rewrite Nat.add_0_r.
  - destruct fuel as [|fuel]; [inversion Hfuel|]. cbn [List.length] in Hfuel.
    unfold satisfying. cbn [main_loop next resume List.filter].
    destruct (truthy (is_satisfied spec item)) eqn:E.
    + rewrite (IH (count + 1) fuel ltac:(lia)). unfold satisfying.
      cbn [map app List.length]. rewrite <- Nat.add_assoc. reflexivity.
    + specialize (IH count (S fuel) ltac:(lia)).
      cbn [main_loop next] in IH. exact IH.
Qed.

End Laziness.

(** X17. The count is reported only when the consumer pulls past the last
    match. A consumer that takes [k] items and stops, with [k] at most the
    number of matching items, receives the first [k] matching items and
    nothing is printed, also when [k] is the number of all matching items;
    with a larger [k] it receives all matching items, the generator is
    finished and the line [found n files] has been printed once. *)
Theorem count_reported_only_after_exhaustion
  (items : list Item) (spec : Specification) (k : nat) :
  (k <= List.length (satisfying spec items) ->
   exists g : SubjectFilter.Generator,
     SubjectFilter.pull k (SubjectFilter.filter items spec)
     = (firstn k (satisfying spec items), g, [])
     /\ g <> SubjectFilter.Finished)
  /\ (List.length (satisfying spec items) < k ->
      SubjectFilter.pull k (SubjectFilter.filter items spec)
      = (satisfying spec items, SubjectFilter.Finished,
         [found_line (List.length (satisfying spec items))])).
Proof.
  unfold SubjectFilter.filter. split; intros Hk.
  - destruct (pull_within spec items 0 k Hk) as [rest Hr].
    rewrite Hr. eexists. split; [reflexivity | discriminate].
  - now rewrite (pull_beyond spec items 0 k Hk).
Qed.

Lemma count_reported_only_after_exhaustion_witness :
  (1 <= List.length
          (satisfying (Extension ["jpg"]) [item_notes; item_photo; item_notes])
   /\ exists g : SubjectFilter.Generator,
       SubjectFilter.pull 1
         (SubjectFilter.filter [item_notes; item_photo; item_notes]
            (Extension ["jpg"]))
       = ([item_photo], g, [])
       /\ g <> SubjectFilter.Finished)
  /\ (List.length
        (satisfying (Extension ["jpg"]) [item_notes; item_photo; item_notes])
      < 2
      /\ SubjectFilter.pull 2
           (SubjectFilter.filter [item_notes; item_photo; item_notes]
              (Extension ["jpg"]))
         = ([item_photo], SubjectFilter.Finished, ["found 1 files"])).
Proof.
  split.
  - split; [vm_compute; lia|].
    apply (proj1 (count_reported_only_after_exhaustion
                    [item_notes; item_photo; item_notes]
                    (Extension ["jpg"]) 1)).
    vm_compute; lia.
  - split; [vm_compute; lia|].
    apply (proj2 (count_reported_only_after_exhaustion
                    [item_notes; item_photo; item_notes]
                    (Extension ["jpg"]) 2)).
    vm_compute; lia.
Defined.

(** X18. Filtering in two passes is filtering with [&]. Filtering the items
    received from a pass with [s1] by a second pass with [s2] gives the same
    items and the same final line as one pass with [s1 & s2]; and a second
    pass with [s1] itself gives back all the items it is given. *)
Theorem two_passes_equal_and
  (items : list Item) (s1 s2 : Specification) (fuel : nat) :
  List.length items < fuel ->
  exists received : list Item,
    SubjectFilter.consume fuel (SubjectFilter.filter items s1)
    = Some (received, [found_line (List.length received)])
    /\ SubjectFilter.consume fuel (SubjectFilter.filter received s2)
       = SubjectFilter.consume fuel
           (SubjectFilter.filter items (__and__ s1 s2))
    /\ SubjectFilter.consume fuel (SubjectFilter.filter received s1)
       = Some (received, [found_line (List.length received)]).
Proof.
  intros Hfuel. exists (satisfying s1 items). unfold SubjectFilter.filter.
  pose proof (satisfying_length s1 items) as Hle.
  rewrite (consume_suspended s1 items 0 fuel Hfuel).
  rewrite (consume_suspended s2 (satisfying s1 items) 0 fuel) by lia.
  rewrite (consume_suspended (__and__ s1 s2) items 0 fuel Hfuel).
  rewrite (consume_suspended s1 (satisfying s1 items) 0 fuel) by lia.
  rewrite (satisfying_and s1 s2 items), (satisfying_idempotent s1 items).
  cbn [Nat.add]. repeat split.
Qed.

Lemma two_passes_equal_and_witness :
  List.length [item_notes; item_photo; item_notes] < 4
  /\ exists received : list Item,
      SubjectFilter.consume 4
        (SubjectFilter.filter [item_notes; item_photo; item_notes]
           (FolderNames ["old"]))
      = Some (received, [found_line (List.length received)])
      /\ SubjectFilter.consume 4
           (SubjectFilter.filter received (Extension ["txt"]))
         = SubjectFilter.consume 4
             (SubjectFilter.filter [item_notes; item_photo; item_notes]
                (__and__ (FolderNames ["old"]) (Extension ["txt"])))
      /\ SubjectFilter.consume 4
           (SubjectFilter.filter received (FolderNames ["old"]))
         = Some (received, [found_line (List.length received)]).
Proof.
  split; [cbn; lia|].
  apply (two_passes_equal_and [item_notes; item_photo; item_notes]
           (FolderNames ["old"]) (Extension ["txt"]) 4).
  cbn; lia.
Defined.

(** X19. A specification and its negation split the input. A pass with [s]
    and a pass with [~s] over the same items give, between them, every item
    exactly once, and the two reported counts add up to the number of
    items; this holds also when [s] is a primitive that returns [None]. *)
Theorem spec_and_negation_split_input
  (items : list Item) (s : Specification) (fuel : nat) :
  List.length items < fuel ->
  exists (yes no : list Item),
    SubjectFilter.consume fuel (SubjectFilter.filter items s)
    = Some (yes, [found_line (List.length yes)])
    /\ SubjectFilter.consume fuel (SubjectFilter.filter items (__invert__ s))
       = Some (no, [found_line (List.length no)])
    /\ Permutation (yes ++ no) items
    /\ List.length yes + List.length no = List.length items.
Proof.
  intros Hfuel.
  exists (satisfying s items), (satisfying (__invert__ s) items).
  unfold SubjectFilter.filter.
  rewrite !consume_suspended by exact Hfuel. cbn [Nat.add].
  split; [reflexivity|]. split; [reflexivity|].
  assert (P : Permutation
                (satisfying s items ++ satisfying (__invert__ s) items) items).
  { rewrite satisfying_invert. unfold satisfying.
    apply (filter_complement_Permutation
             (fun R => truthy (is_satisfied s R)) items). }
  split; [exact P|].
  rewrite <- (Permutation_length P). now rewrite length_app.
Qed.

Lemma spec_and_negation_split_input_witness :
  List.length [item_notes; item_photo; item_notes] < 4
  /\ exists (yes no : list Item),
      SubjectFilter.consume 4
        (SubjectFilter.filter [item_notes; item_photo; item_notes]
           (FileName ["photo"]))
      = Some (yes, [found_line (List.length yes)])
      /\ SubjectFilter.consume 4
           (SubjectFilter.filter [item_notes; item_photo; item_notes]
              (__invert__ (FileName ["photo"])))
         = Some (no, [found_line (List.length no)])
      /\ Permutation (yes ++ no) [item_notes; item_photo; item_notes]
      /\ List.length yes + List.length no
         = List.length [item_notes; item_photo; item_notes].
Proof.
  split; [cbn; lia|].
  apply (spec_and_negation_split_input [item_notes; item_photo; item_notes]
           (FileName ["photo"]) 4).
  cbn; lia.
Defined.

(** X20. What the loop of the entry point prints. Run to its end over any
    list of items and any specification, the [for] loop prints one line
    [process -> <file_path>] per selected item, in the order of the items,
    and after them, as the last line, [found n files] with [n] the number
    of lines printed before it. *)
Theorem main_loop_output
  (items : list Item) (spec : Specification) (fuel : nat) :
  List.length items < fuel ->
  main_loop fuel (SubjectFilter.filter items spec)
  = Some (map process_line (satisfying spec items)
          ++ [found_line
                (List.length (map process_line (satisfying spec items)))]).
Proof.
  intros Hfuel. unfold SubjectFilter.filter.
  rewrite (main_loop_suspended spec items 0 fuel Hfuel).
  now rewrite length_map.
Qed.

Lemma main_loop_output_witness :
  List.length [item_notes; item_photo; item_notes] < 4
  /\ main_loop 4
       (SubjectFilter.filter [item_notes; item_photo; item_notes]
          (Extension ["txt"]))
     = Some ["process -> /data/old/notes.txt";
             "process -> /data/old/notes.txt";
             "found 2 files"].
Proof.
  split; [cbn; lia|].
  apply (main_loop_output [item_notes; item_photo; item_notes]
           (Extension ["txt"]) 4).
  cbn; lia.
Defined.
